(** * Your Commonbase search command (src/ycb.tsx)

    A shallow embedding of the Raycast command: the display helpers
    ([getMetadataDisplay], [getEntryUrl], the title and subtitle of a list
    item) as pure functions over strings, and the two search operations and
    the input handlers as resumable programs run by a small event loop. *)

From Stdlib Require Import String Ascii List Bool Arith ZArith Lia.
Import ListNotations.
Local Open Scope string_scope.

(** ** JavaScript strings

    A JavaScript string is a sequence of UTF-16 code units, and [length],
    [substring], [includes], [replace] and [trim] all work on code units.
    The embedding uses Rocq strings: one character stands for one code unit
    in the range 0..255. *)

Module JS.

(** The first [n] code units of [s], all of [s] when it is shorter. *)
Fixpoint take (n : nat) (s : string) : string :=
  match n, s with
  | S n', String c s' => String c (take n' s')
  | _, _ => ""
  end.

(** [s] without its first [n] code units. *)
Fixpoint drop (n : nat) (s : string) : string :=
  match n, s with
  | S n', String _ s' => drop n' s'
  | _, _ => s
  end.

(** [s.substring(start, end)] for non-negative integer arguments: both are
    clamped to the length, and swapped when [start] is the greater. *)
Definition substring (start end_ : nat) (s : string) : string :=
  let a := Nat.min start (String.length s) in
  let b := Nat.min end_ (String.length s) in
  take (Nat.max a b - Nat.min a b) (drop (Nat.min a b) s).

(** [s.startsWith(p)]: the search step of [includes] and [replace]. *)
Fixpoint startsWith (s p : string) {struct p} : bool :=
  match p with
  | "" => true
  | String a p' =>
      match s with
      | "" => false
      | String b s' => Ascii.eqb a b && startsWith s' p'
      end
  end.

(** [s.includes(p)]. *)
Fixpoint includes (s p : string) : bool :=
  startsWith s p ||
  match s with
  | "" => false
  | String _ s' => includes s' p
  end.

(** [s.replace(pat, rep)] with a string pattern: the first occurrence of
    [pat] is replaced, the rest of [s] is kept. The replacement texts of the
    source contain no [$], so no replacement pattern is expanded. *)
Fixpoint replace (s pat rep : string) : string :=
  if startsWith s pat then rep ++ drop (String.length pat) s
  else match s with
       | "" => ""
       | String c s' => String c (replace s' pat rep)
       end.

(** [s.indexOf(p)], with [None] for the answer -1. *)
Fixpoint indexOf (s p : string) : option nat :=
  if startsWith s p then Some 0
  else match s with
       | "" => None
       | String _ s' => option_map S (indexOf s' p)
       end.

(** White space and line terminators among the code units 0..255: TAB, LF,
    VT, FF, CR, SPACE and NO-BREAK SPACE. *)
Definition isWhiteSpace (c : ascii) : bool :=
  let n := nat_of_ascii c in
  ((9 <=? n)%nat && (n <=? 13)%nat) || (n =? 32)%nat || (n =? 160)%nat.

Fixpoint trimStart (s : string) : string :=
  match s with
  | "" => ""
  | String c s' => if isWhiteSpace c then trimStart s' else s
  end.

Fixpoint trimEnd (s : string) : string :=
  match s with
  | "" => ""
  | String c s' =>
      match trimEnd s' with
      | "" => if isWhiteSpace c then "" else String c ""
      | t => String c t
      end
  end.

(** [s.trim()]. *)
Definition trim (s : string) : string := trimEnd (trimStart s).

(** Truthiness of a string: only the empty string is falsy. *)
Definition truthy (s : string) : bool := negb (s =? "").

(** Truthiness of an optional string property: [undefined] is falsy. *)
Definition truthy_opt (o : option string) : bool :=
  match o with
  | Some s => truthy s
  | None => false
  end.

(** [a || b] where [a] is a string or [undefined] and [b] a string. *)
Definition or_else (a : option string) (b : string) : string :=
  match a with
  | Some s => if truthy s then s else b
  | None => b
  end.

(** Every code unit of [s] is white space. *)
Fixpoint blank (s : string) : bool :=
  match s with
  | "" => true
  | String c s' => isWhiteSpace c && blank s'
  end.

(** [p] occurs in [s] at offset [n]. *)
Definition occurs_at (s p : string) (n : nat) : Prop :=
  exists pre post, s = pre ++ p ++ post /\ String.length pre = n.

(** [s] ends with [p]. *)
Definition ends_with (s p : string) : Prop := exists pre, s = pre ++ p.

(** No non-empty suffix of [p] starts the text [tl]: an occurrence of [p]
    cannot run from another text into a following [tl]. *)
Fixpoint no_overlap (tl p : string) : bool :=
  match p with
  | "" => true
  | String _ p' => negb (startsWith tl p) && no_overlap tl p'
  end.

End JS.

(** ** Data model *)

Record Preferences := {
  apiKey : string;
  ycbUrl : string
}.

(** [SearchResult['metadata']]: every field is optional. *)
Record Metadata := {
  title : option string;
  author : option string;
  type : option string;
  ogDescription : option string;
  ogImages : option (list string)
}.

(** [SearchResult]. The similarity score and the highlight spans are carried
    along untouched by the code below and are left out. *)
Record SearchResult := {
  id : string;
  data : string;
  metadata : Metadata;
  image : option string
}.

(** ** Result normalizer *)

Section Normalizer.

(** [new URL(s).hostname] of the host platform: [None] when the constructor
    throws. *)
Variable URL_hostname : string -> option string.

Variable preferences : Preferences.

(** The [try] block of [getMetadataDisplay]: [None] when [new URL] throws. *)
Definition getMetadataDisplay_try (a : string) : option string :=
  if JS.includes a "yourcommonbase.com" then Some "Your Commonbase"
  else match URL_hostname a with
       | Some hostname => Some (JS.replace hostname "www." "")
       | None => None
       end.

(** The [catch] block of [getMetadataDisplay]. *)
Definition getMetadataDisplay_catch (a : string) : string :=
  if JS.includes a "yourcommonbase.com" then "Your Commonbase"
  else if (30 <? String.length a)%nat then JS.substring 0 30 a ++ "..."
  else a.

Definition getMetadataDisplay (m : Metadata) : string :=
  match author m with
  | None => ""
  | Some a =>
      if negb (JS.truthy a) then ""
      else match getMetadataDisplay_try a with
           | Some label => label
           | None => getMetadataDisplay_catch a
           end
  end.

(** The source accessory of a [List.Item]: there is one only for a truthy
    author. *)
Definition sourceAccessory (result : SearchResult) : option string :=
  if JS.truthy_opt (author (metadata result))
  then Some (getMetadataDisplay (metadata result))
  else None.

Definition getEntryUrl (id : string) : string :=
  let baseUrl := JS.replace (ycbUrl preferences) "/backend" "" in
  baseUrl ++ "/dashboard/entry/" ++ id.

(** The [title] of a [List.Item], the same expression in both sections. *)
Definition itemTitle (result : SearchResult) : string :=
  JS.or_else (title (metadata result))
             (JS.substring 0 60 (data result) ++ "...").

(** The [subtitle] of a [List.Item]. *)
Definition itemSubtitle (result : SearchResult) : string :=
  JS.or_else (ogDescription (metadata result))
             (JS.substring 0 100 (data result) ++ "...").

End Normalizer.

(** [m] with its author replaced. *)
Definition withAuthor (m : Metadata) (a : string) : Metadata :=
  {| title := title m; author := Some a; type := type m;
     ogDescription := ogDescription m; ogImages := ogImages m |}.

(** The hostname without a leading [www.], as the specification words the
    second case of the source label. *)
Definition stripLeadingWww (hostname : string) : string :=
  if JS.startsWith hostname "www." then JS.drop 4 hostname else hostname.

(** The source label of a non-empty author as the specification words it:
    the fixed label for the knowledge base's own domain, else the hostname
    without a leading [www.], else the raw text cut to 30 code units with
    its marker. Used to compare with [getMetadataDisplay]. *)
Definition spec_sourceLabel (URL_hostname : string -> option string)
  (a : string) : string :=
  if JS.includes a "yourcommonbase.com" then "Your Commonbase"
  else match URL_hostname a with
       | Some hostname => stripLeadingWww hostname
       | None =>
           if (String.length a <=? 30)%nat then a
           else JS.take 30 a ++ "..."
       end.

(** The entry URL as the specification words it: the dashboard segment is
    put in the place of the backend segment, then [/entry/{id}] follows. *)
Definition spec_entryUrl (base id : string) : string :=
  JS.replace base "/backend" "/dashboard" ++ "/entry/" ++ id.

(** ** Effects, requests and replies *)

Inductive ToastStyle := Failure | Success | Animated.

Inductive RequestBody :=
| NoBody
| SearchBody (text : string) (matchLimit : nat)
| ImagesBody (ids : list string).

(** A call that leaves the process: a query to the search index through
    [searchClient.search], or a [fetch] with method POST and a bearer
    credential. The match threshold 0.35 of the semantic search is a
    constant of the body and is not recorded. *)
Inductive Request :=
| IndexSearch (indexName query : string) (hitsPerPage : nat)
| Post (url bearer : string) (body : RequestBody).

(** What the command does that can be observed from outside. *)
Inductive Effect :=
| Net (r : Request)
| ConsoleError (message : string)
| ShowToast (style : ToastStyle) (heading message : string).

(** The value [response.json()] gives: no JSON at all (the call rejects),
    an object with a [token], an object with an [error], an array of
    results, an object whose [body.urls] is there ([urls] lists the keys it
    holds itself, with their string values), or any other value, which has
    none of [token], [error] and [body.urls]. *)
Inductive Json :=
| NotJson
| JsonToken (token : string)
| JsonError (error : string)
| JsonResults (results : list SearchResult)
| JsonImageUrls (urls : list (string * string))
| JsonOther.

Inductive Reply :=
| Hits (hits : list SearchResult)
| Http (status : Z) (body : Json).

(** How a request settles: its promise rejects (a transport failure) or is
    fulfilled with a reply. *)
Inductive Outcome :=
| Rejected
| Fulfilled (r : Reply).

(** [response.ok]: the status is in the range 200..299. *)
Definition ok (status : Z) : bool :=
  ((200 <=? status) && (status <=? 299))%Z.

(** ** Component state *)

Record State := {
  searchText : string;
  semanticResults : list SearchResult;
  isLoadingSemanticSearch : bool;
  searchClient : option string;
  meiliSearchResults : list SearchResult;
  isLoadingMeiliSearch : bool
}.

Definition setSearchText (v : string) (s : State) : State :=
  {| searchText := v;
     semanticResults := semanticResults s;
     isLoadingSemanticSearch := isLoadingSemanticSearch s;
     searchClient := searchClient s;
     meiliSearchResults := meiliSearchResults s;
     isLoadingMeiliSearch := isLoadingMeiliSearch s |}.

Definition setSemanticResults (v : list SearchResult) (s : State) : State :=
  {| searchText := searchText s;
     semanticResults := v;
     isLoadingSemanticSearch := isLoadingSemanticSearch s;
     searchClient := searchClient s;
     meiliSearchResults := meiliSearchResults s;
     isLoadingMeiliSearch := isLoadingMeiliSearch s |}.

Definition setIsLoadingSemanticSearch (v : bool) (s : State) : State :=
  {| searchText := searchText s;
     semanticResults := semanticResults s;
     isLoadingSemanticSearch := v;
     searchClient := searchClient s;
     meiliSearchResults := meiliSearchResults s;
     isLoadingMeiliSearch := isLoadingMeiliSearch s |}.

Definition setSearchClient (v : option string) (s : State) : State :=
  {| searchText := searchText s;
     semanticResults := semanticResults s;
     isLoadingSemanticSearch := isLoadingSemanticSearch s;
     searchClient := v;
     meiliSearchResults := meiliSearchResults s;
     isLoadingMeiliSearch := isLoadingMeiliSearch s |}.

Definition setMeiliSearchResults (v : list SearchResult) (s : State) : State :=
  {| searchText := searchText s;
     semanticResults := semanticResults s;
     isLoadingSemanticSearch := isLoadingSemanticSearch s;
     searchClient := searchClient s;
     meiliSearchResults := v;
     isLoadingMeiliSearch := isLoadingMeiliSearch s |}.

Definition setIsLoadingMeiliSearch (v : bool) (s : State) : State :=
  {| searchText := searchText s;
     semanticResults := semanticResults s;
     isLoadingSemanticSearch := isLoadingSemanticSearch s;
     searchClient := searchClient s;
     meiliSearchResults := meiliSearchResults s;
     isLoadingMeiliSearch := v |}.

(** ** Resumable programs

    An [async] function runs until its first [await], leaves a continuation
    behind and goes on when the awaited requests have settled. [Read] gives
    the state of the current render, which the closures of the source hold;
    [Spawn] calls an async function without awaiting it; [Await] issues
    requests and suspends until all of them have settled ([Promise.all] for
    more than one). *)

Inductive Async : Type :=
| Done
| Update (f : State -> State) (k : Async)
| Read (k : State -> Async)
| Emit (e : Effect) (k : Async)
| Spawn (p : Async) (k : Async)
| Await (reqs : list Request) (k : list Outcome -> Async).

(** [p] and then [q]: the body of a [try] followed by its [finally]. *)
Fixpoint seq (p q : Async) : Async :=
  match p with
  | Done => q
  | Update f k => Update f (seq k q)
  | Read k => Read (fun s => seq (k s) q)
  | Emit e k => Emit e (seq k q)
  | Spawn p' k => Spawn p' (seq k q)
  | Await reqs k => Await reqs (fun outcomes => seq (k outcomes) q)
  end.

Fixpoint emitAll (es : list Effect) (k : Async) : Async :=
  match es with
  | [] => k
  | e :: es' => Emit e (emitAll es' k)
  end.

(** A suspended call: the requests it waits for and what it does next. *)
Definition Task : Type := list Request * (list Outcome -> Async).

Record World := {
  state : State;
  log : list Effect;
  pending : list Task
}.

(** Runs [p] up to the point where it has finished or is suspended. *)
Fixpoint run (p : Async) (w : World) : World :=
  match p with
  | Done => w
  | Update f k =>
      run k {| state := f (state w); log := log w; pending := pending w |}
  | Read k => run (k (state w)) w
  | Emit e k =>
      run k {| state := state w; log := (log w ++ [e])%list;
               pending := pending w |}
  | Spawn p' k => run k (run p' w)
  | Await reqs k =>
      {| state := state w;
         log := (log w ++ map Net reqs)%list;
         pending := (pending w ++ [(reqs, k)])%list |}
  end.

(** ** The command *)

Section Command.

Variable preferences : Preferences.

Definition isSome {A : Type} (o : option A) : bool :=
  match o with
  | Some _ => true
  | None => false
  end.

(** [urls[key]] for the keys [urls] holds itself, [None] for [undefined].
    For a key that [urls] does not hold and that names a member every
    object inherits ([constructor], [toString], ...) the source reads that
    member; such keys are outside this function, see [inheritedMember]. *)
Fixpoint lookup (key : string) (urls : list (string * string)) : option string :=
  match urls with
  | [] => None
  | (k, v) :: rest => if k =? key then Some v else lookup key rest
  end.

(** [result.metadata.type === "image"]. *)
Definition isImage (result : SearchResult) : bool :=
  match type (metadata result) with
  | Some t => t =? "image"
  | None => false
  end.

(** [{ ...result, image: imageUrl }]. *)
Definition withImage (result : SearchResult) (imageUrl : option string) : SearchResult :=
  {| id := id result; data := data result; metadata := metadata result;
     image := imageUrl |}.

(** The request [fetchImage] sends for one id. *)
Definition fetchImage_request (id : string) : Request :=
  Post (ycbUrl preferences ++ "/fetchImagesByIDs") (apiKey preferences)
       (ImagesBody [id]).

(** The [try] block of [fetchImage] once its request has settled:
    [data.body.urls[id]], or [None] when something throws (the promise
    rejects, the body is no JSON or has no [body.urls]). The status is not
    looked at. *)
Definition fetchImage_try (id : string) (o : Outcome) : option (option string) :=
  match o with
  | Fulfilled (Http _ (JsonImageUrls urls)) => Some (lookup id urls)
  | _ => None
  end.

(** What [fetchImage] returns: [undefined] after a caught failure. *)
Definition fetchImage_value (id : string) (o : Outcome) : option string :=
  match fetchImage_try id o with
  | Some v => v
  | None => None
  end.

(** What [fetchImage] prints: the diagnostic of its [catch]. *)
Definition fetchImage_log (id : string) (o : Outcome) : list Effect :=
  match fetchImage_try id o with
  | Some _ => []
  | None => [ConsoleError "Failed to fetch image:"]
  end.

(** The results of [results.map(...)] once every image request has settled:
    the image-type results take the settled requests in order, the others
    are returned as they are. An image-type result with no outcome left does
    not occur, the event loop hands over as many outcomes as requests. *)
Fixpoint hydrate (results : list SearchResult) (outcomes : list Outcome)
  : list SearchResult :=
  match results with
  | [] => []
  | r :: rest =>
      if isImage r then
        match outcomes with
        | o :: os => withImage r (fetchImage_value (id r) o) :: hydrate rest os
        | [] => withImage r None :: hydrate rest []
        end
      else r :: hydrate rest outcomes
  end.

(** What [await Promise.all(...)] goes on with when every image request has
    settled: the diagnostics of the failed ones, then [k] on
    [resultsWithImages]. The source prints each diagnostic when its own
    request settles; here the diagnostics of a batch are printed together,
    in the order of the batch, when the last request has settled. *)
Definition loadImages_settled (results : list SearchResult)
  (k : list SearchResult -> Async) (outcomes : list Outcome) : Async :=
  emitAll (concat (map (fun ro => fetchImage_log (id (fst ro)) (snd ro))
                       (combine (filter isImage results) outcomes)))
          (k (hydrate results outcomes)).

(** [await Promise.all(results.map(async (result) => ...))]: one image
    request for every image-type result, all sent before the first one
    settles. *)
Definition loadImages (results : list SearchResult)
  (k : list SearchResult -> Async) : Async :=
  Await (map (fun r => fetchImage_request (id r)) (filter isImage results))
        (loadImages_settled results k).

(** [getToken] as used by [initializeMeiliSearch]: the token, or [None] when
    the call throws (rejected request, no JSON, an [error] field). A body
    without [token] and with no [error] or an empty one gives an undefined
    token, which the model does not separate from a failure. *)
Definition getToken_try (outcomes : list Outcome) : option string :=
  match outcomes with
  | [Fulfilled (Http _ (JsonToken token))] => Some token
  | _ => None
  end.

Definition initializeMeiliSearch : Async :=
  Await [Post (ycbUrl preferences ++ "/token") (apiKey preferences) NoBody]
        (fun outcomes =>
           match getToken_try outcomes with
           | Some token => Update (setSearchClient (Some token)) Done
           | None =>
               Emit (ConsoleError "Failed to initialize MeiliSearch:")
              (Emit (ShowToast Failure "Search Error"
                       "Failed to initialize search. Check your API key.")
               Done)
           end).

(** The hits the [try] block of [performMeiliSearch] has in hand when the
    index query has settled, [None] when it throws. *)
Definition meiliResponse (outcomes : list Outcome) : option (list SearchResult) :=
  match outcomes with
  | [Fulfilled (Hits hits)] => Some hits
  | _ => None
  end.

Definition performMeiliSearch_settled (outcomes : list Outcome) : Async :=
  seq (match meiliResponse outcomes with
       | Some hits =>
           loadImages hits (fun resultsWithImages =>
             Update (setMeiliSearchResults resultsWithImages) Done)
       | None =>
           Emit (ConsoleError "MeiliSearch error:")
          (Update (setMeiliSearchResults []) Done)
       end)
      (Update (setIsLoadingMeiliSearch false) Done).

Definition performMeiliSearch (query : string) : Async :=
  Read (fun st =>
    if negb (isSome (searchClient st)) || negb (JS.truthy (JS.trim query)) then
      Update (setMeiliSearchResults []) Done
    else
      Update (setIsLoadingMeiliSearch true)
     (Await [IndexSearch "ycb_fts_staging" query 20]
            performMeiliSearch_settled)).

(** The results the [try] block of [performSemanticSearch] has in hand when
    the request has settled, [None] when it throws: a rejected request, a
    response that is not [ok] (whatever its body), or a body that is no
    array of results. *)
Definition semanticResponse (outcomes : list Outcome) : option (list SearchResult) :=
  match outcomes with
  | [Fulfilled (Http status body)] =>
      if negb (ok status) then None
      else match body with
           | JsonResults results => Some results
           | _ => None
           end
  | _ => None
  end.

Definition performSemanticSearch_settled (outcomes : list Outcome) : Async :=
  seq (match semanticResponse outcomes with
       | Some results =>
           loadImages results (fun resultsWithImages =>
             Update (setSemanticResults resultsWithImages) Done)
       | None =>
           Emit (ConsoleError "Semantic search error:")
          (Emit (ShowToast Failure "Search Error"
                   "Failed to perform semantic search")
          (Update (setSemanticResults []) Done))
       end)
      (Update (setIsLoadingSemanticSearch false) Done).

Definition performSemanticSearch (query : string) : Async :=
  if negb (JS.truthy (JS.trim query)) then
    Update (setSemanticResults []) Done
  else
    Update (setIsLoadingSemanticSearch true)
   (Await [Post (ycbUrl preferences ++ "/search") (apiKey preferences)
                (SearchBody query 5)]
          performSemanticSearch_settled).

(** The handler reads [semanticResults.length] of the render it was made
    in; a render follows every state update before the next event. *)
Definition handleSearchTextChange (text : string) : Async :=
  Read (fun st =>
    Update (setSearchText text)
   (Spawn (performMeiliSearch text)
   (if (0 <? List.length (semanticResults st))%nat then
      Update (setSemanticResults []) Done
    else Done))).

Definition handleEnterPress : Async :=
  Read (fun st =>
    if JS.truthy (JS.trim (searchText st)) then
      Spawn (performSemanticSearch (searchText st)) Done
    else Done).

(** ** The event loop *)

(** The events of the search: the mounting of the command, a change of the
    search text, the trigger of the semantic search, and the settling of a
    suspended call. The action [Copy Image] reads and writes no state of
    the component and is not among them; it is modelled apart, by
    [handleCopyImage]. *)
Inductive Event :=
| Mount
| SearchTextChange (text : string)
| EnterPress
| Settle (i : nat) (outcomes : list Outcome).

Definition removeAt {A : Type} (i : nat) (l : list A) : list A :=
  (firstn i l ++ skipn (S i) l)%list.

(** One turn of the event loop. [Settle i outcomes] resumes the [i]-th
    suspended call with the outcomes of its requests, in any order among the
    suspended calls; an event that names no suspended call, or brings the
    wrong number of outcomes, does nothing. *)
Definition step (w : World) (ev : Event) : World :=
  match ev with
  | Mount =>
      if JS.truthy (apiKey preferences) then run initializeMeiliSearch w else w
  | SearchTextChange text => run (handleSearchTextChange text) w
  | EnterPress => run handleEnterPress w
  | Settle i outcomes =>
      match nth_error (pending w) i with
      | Some (reqs, k) =>
          if (List.length outcomes =? List.length reqs)%nat then
            run (k outcomes)
                {| state := state w; log := log w;
                   pending := removeAt i (pending w) |}
          else w
      | None => w
      end
  end.

Definition runTrace (w : World) (evs : list Event) : World :=
  fold_left step evs w.

End Command.

(** The state of the first render. *)
Definition initialState : State :=
  {| searchText := ""; semanticResults := []; isLoadingSemanticSearch := false;
     searchClient := None; meiliSearchResults := [];
     isLoadingMeiliSearch := false |}.

Definition initialWorld : World :=
  {| state := initialState; log := []; pending := [] |}.

(** ** Sample data for the examples *)

(** The hostnames the platform's URL parser gives for the authors used in
    the examples below. The other texts used there have no scheme, and the
    constructor throws on them. *)
Definition sample_hostname (s : string) : option string :=
  if s =? "https://www.example.com/page" then Some "www.example.com"
  else if s =? "https://ewww.io/" then Some "ewww.io"
  else if s =? "https://knowledge-base-attachments.example.com/a" then
    Some "knowledge-base-attachments.example.com"
  else if s =? "https://yourcommonbase.com/dashboard" then
    Some "yourcommonbase.com"
  else None.

Definition noMetadata : Metadata :=
  {| title := None; author := None; type := None; ogDescription := None;
     ogImages := None |}.

Definition defaultPreferences : Preferences :=
  {| apiKey := "secret"; ycbUrl := "https://yourcommonbase.com/backend" |}.

Definition noteEntry : SearchResult :=
  {| id := "n1"; data := "Ownership moves values between bindings.";
     metadata := noMetadata; image := None |}.

Definition photoEntry : SearchResult :=
  {| id := "p7"; data := "";
     metadata := {| title := None; author := None; type := Some "image";
                    ogDescription := None; ogImages := None |};
     image := None |}.

Definition untitledEntry : SearchResult :=
  {| id := "u3"; data := "hello";
     metadata := {| title := Some ""; author := None; type := None;
                    ogDescription := None; ogImages := None |};
     image := None |}.

Definition bookEntry : SearchResult :=
  {| id := "b2"; data := "Chapter 4 explains ownership and borrowing.";
     metadata := {| title := Some "The Rust Book"; author := None;
                    type := None; ogDescription := Some "Ownership";
                    ogImages := None |};
     image := None |}.

Definition sampleHits : list SearchResult := [noteEntry; photoEntry].

Definition sampleResults : list SearchResult := [photoEntry; bookEntry].

(** The image resolver answers the request for [p7] with a URL. *)
Definition sampleSettled : list Outcome :=
  [Fulfilled (Http 200 (JsonImageUrls [("p7", "https://img.example.com/p7.png")]))].

(** ** Observations on worlds and programs *)

Definition isToast (e : Effect) : bool :=
  match e with
  | ShowToast _ _ _ => true
  | _ => false
  end.

Definition isNet (e : Effect) : bool :=
  match e with
  | Net _ => true
  | _ => false
  end.

(** A state update that leaves [semanticResults] as it is. *)
Definition keepsSemantic (f : State -> State) : Prop :=
  forall s, semanticResults (f s) = semanticResults s.

(** A program that never writes [semanticResults], now or after any of its
    awaits. *)
Inductive semanticFree : Async -> Prop :=
| sf_done : semanticFree Done
| sf_update f k : keepsSemantic f -> semanticFree k -> semanticFree (Update f k)
| sf_read k : (forall s, semanticFree (k s)) -> semanticFree (Read k)
| sf_emit e k : semanticFree k -> semanticFree (Emit e k)
| sf_spawn p k : semanticFree p -> semanticFree k -> semanticFree (Spawn p k)
| sf_await reqs k :
    (forall outcomes, semanticFree (k outcomes)) -> semanticFree (Await reqs k).

(** No suspended call of [w] can write [semanticResults]: no semantic search
    is in flight. *)
Definition noSemanticInFlight (w : World) : Prop :=
  Forall (fun t : Task => forall outcomes, semanticFree (snd t outcomes))
         (pending w).

(** [r] is what hydration makes of [h]: the same entry, with an image field
    that differs from the one received only for an image-type entry. *)
Definition hydratedFrom (h r : SearchResult) : Prop :=
  id r = id h /\ data r = data h /\ metadata r = metadata h /\
  (type (metadata h) <> Some "image" -> r = h).

(** [req] is the image request of an image-type entry of the batch. *)
Definition requestOfImageEntry (preferences : Preferences)
  (results : list SearchResult) (req : Request) : Prop :=
  exists h, In h results /\ type (metadata h) = Some "image" /\
            req = fetchImage_request preferences (id h).

(** The image requests that stand for the image-type entries of a batch,
    one for each, in the order of the batch. *)
Definition imageRequests (preferences : Preferences)
  (results : list SearchResult) : list Request :=
  map (fun r => fetchImage_request preferences (id r)) (filter isImage results).

(** The lexical request of a query. *)
Definition meiliRequest (query : string) : Request :=
  IndexSearch "ycb_fts_staging" query 20.

(** The semantic request of a query. *)
Definition semanticRequest (preferences : Preferences) (query : string)
  : Request :=
  Post (ycbUrl preferences ++ "/search") (apiKey preferences)
       (SearchBody query 5).

(** The rest of the lexical search once the images of [hits] have settled:
    the continuation [performMeiliSearch_settled] leaves behind. *)
Definition meiliImages_settled (hits : list SearchResult)
  (outcomes : list Outcome) : Async :=
  seq (loadImages_settled hits
         (fun resultsWithImages =>
            Update (setMeiliSearchResults resultsWithImages) Done) outcomes)
      (Update (setIsLoadingMeiliSearch false) Done).

(** The rest of the semantic search once the images of [results] have
    settled. *)
Definition semanticImages_settled (results : list SearchResult)
  (outcomes : list Outcome) : Async :=
  seq (loadImages_settled results
         (fun resultsWithImages =>
            Update (setSemanticResults resultsWithImages) Done) outcomes)
      (Update (setIsLoadingSemanticSearch false) Done).

(** A world with the search client in place and results of both kinds on
    display. *)
Definition busyWorld : World :=
  {| state := {| searchText := "rust"; semanticResults := [bookEntry];
                 isLoadingSemanticSearch := false;
                 searchClient := Some "token";
                 meiliSearchResults := [noteEntry];
                 isLoadingMeiliSearch := false |};
     log := []; pending := [] |}.

(** The user types, asks for a semantic search, and types again while that
    search is in flight; its response comes afterwards. *)
Definition staleTrace : list Event :=
  [ Mount;
    Settle 0 [Fulfilled (Http 200 (JsonToken "token"))];
    SearchTextChange "rust";
    Settle 0 [Fulfilled (Hits [noteEntry])];
    Settle 0 [];
    EnterPress;
    SearchTextChange "rust o";
    Settle 0 [Fulfilled (Http 200 (JsonResults [bookEntry]))];
    Settle 1 [] ].

(** An event that comes from the network, not from the user. *)
Definition isSettle (ev : Event) : bool :=
  match ev with
  | Settle _ _ => true
  | _ => false
  end.

(** The trigger of the semantic search. *)
Definition isEnterPress (ev : Event) : bool :=
  match ev with
  | EnterPress => true
  | _ => false
  end.

(** A sequence of events without a trigger of the semantic search. *)
Definition noEnterPress (evs : list Event) : bool :=
  forallb (fun ev => negb (isEnterPress ev)) evs.

(** ** The rendered list *)

Inductive ListSection :=
| SemanticResultsSection
| SearchResultsSection
| GettingStartedSection
| NoResultsSection.

(** [isLoading] of the [List]. *)
Definition isLoading (st : State) : bool :=
  isLoadingMeiliSearch st || isLoadingSemanticSearch st.

(** The sections the component renders, from top to bottom. *)
Definition sections (st : State) : list ListSection :=
  ((if (0 <? List.length (semanticResults st))%nat
    then [SemanticResultsSection] else []) ++
   (if (0 <? List.length (meiliSearchResults st))%nat
    then [SearchResultsSection] else []) ++
   (if (String.length (searchText st) =? 0)%nat
    then [GettingStartedSection] else []) ++
   (if (0 <? String.length (searchText st))%nat
       && (List.length (meiliSearchResults st) =? 0)%nat
       && (List.length (semanticResults st) =? 0)%nat
       && negb (isLoadingMeiliSearch st)
       && negb (isLoadingSemanticSearch st)
    then [NoResultsSection] else []))%list.


(** The actions of the panel of a result item. *)
Inductive ItemAction :=
| OpenEntry (url : string)
| TriggerSemanticSearch
| CopyImage (imageUrl : string)
| CopyContent (content : string)
| CopySourceUrl (content : string)
| OpenSource (url : string).

(** [result.metadata?.type === "image" && result.image ? Copy Image :
    Copy Content]. *)
Definition copyAction (result : SearchResult) : ItemAction :=
  if isImage result && JS.truthy_opt (image result) then
    match image result with
    | Some imageUrl => CopyImage imageUrl
    | None => CopyContent (data result)
    end
  else CopyContent (data result).

(** [result.metadata?.author && <>...</>]. *)
Definition sourceActions (result : SearchResult) : list ItemAction :=
  match author (metadata result) with
  | Some a => if JS.truthy a then [CopySourceUrl a; OpenSource a] else []
  | None => []
  end.

(** The panel of an item of the section of semantic results. *)
Definition semanticItemActions (preferences : Preferences)
  (result : SearchResult) : list ItemAction :=
  OpenEntry (getEntryUrl preferences (id result))
  :: copyAction result :: sourceActions result.

(** The panel of an item of the section of lexical results. *)
Definition meiliItemActions (preferences : Preferences)
  (result : SearchResult) : list ItemAction :=
  OpenEntry (getEntryUrl preferences (id result))
  :: TriggerSemanticSearch :: copyAction result :: sourceActions result.

(** The URL of the action [Open Dashboard] of the onboarding item. *)
Definition dashboardUrl (preferences : Preferences) : string :=
  JS.replace (ycbUrl preferences) "/backend" "/dashboard".

(** ** Copying an image

    [handleCopyImage] touches no state of the component; it is modelled by
    the calls it makes, in order, in an environment that says which of them
    fail. *)

(** How [fetch(imageUrl)] and [response.arrayBuffer()] end: one of them
    rejects, or the bytes are there with the [content-type] header of the
    response ([None] when the header is missing). The status of the
    response is not looked at. *)
Inductive Download :=
| DownloadFailed
| Downloaded (contentType : option string).

Record CopyEnv := {
  download : Download;
  tempDir : option string;
  writeOk : bool;
  clipboardOk : bool
}.

(** The calls of [handleCopyImage]: [showToast], [fetch], [console.error],
    [mkdtempSync] with its prefix in the temporary directory,
    [writeFileSync] with the directory and the name of the file,
    [Clipboard.copy] of a file and of a text. *)
Inductive CopyCall :=
| Toast (style : ToastStyle) (heading : string) (message : option string)
| Get (url : string)
| Diagnostic (message : string)
| MakeTempDir (prefix : string)
| WriteFile (dir name : string)
| CopyFile (dir name : string)
| CopyText (text : string).

(** The extension chosen from the content type. *)
Definition extensionFor (contentType : string) : string :=
  if JS.includes contentType "png" then ".png"
  else if JS.includes contentType "gif" then ".gif"
  else if JS.includes contentType "webp" then ".webp"
  else ".jpg".

(** The [try] block of [handleCopyImage]: the calls made, and whether the
    block ran to its end. [tempDir] is what [mkdtempSync] returns, [None]
    when it throws. *)
Definition handleCopyImage_try (env : CopyEnv) (imageUrl : string)
  : list CopyCall * bool :=
  let start := [Toast Animated "Copying image..." None; Get imageUrl] in
  match download env with
  | DownloadFailed => (start, false)
  | Downloaded header =>
      let contentType := JS.or_else header "" in
      let extension := extensionFor contentType in
      match tempDir env with
      | None => (start ++ [MakeTempDir "ycb-"], false)%list
      | Some dir =>
          let name := "image" ++ extension in
          let written := (start ++ [MakeTempDir "ycb-"; WriteFile dir name])%list in
          if negb (writeOk env) then (written, false)
          else if negb (clipboardOk env) then
            ((written ++ [CopyFile dir name])%list, false)
          else
            ((written ++ [CopyFile dir name;
                          Toast Success "Image copied to clipboard" None])%list,
             true)
      end
  end.

Definition handleCopyImage (env : CopyEnv) (imageUrl : string) : list CopyCall :=
  let (calls, finished) := handleCopyImage_try env imageUrl in
  if finished then calls
  else (calls ++ [Diagnostic "Failed to copy image:";
                  Toast Failure "Failed to copy image"
                        (Some "Copying image URL instead");
                  CopyText imageUrl])%list.

(** ** Programs within bounds *)

(** Every state update of the program is in [U], every effect it emits in
    [E] and every request it sends in [R], now and after any of its
    awaits. *)
Inductive obeys (U : (State -> State) -> Prop) (E : Effect -> Prop)
  (R : Request -> Prop) : Async -> Prop :=
| ob_done : obeys U E R Done
| ob_update f k : U f -> obeys U E R k -> obeys U E R (Update f k)
| ob_read k : (forall s, obeys U E R (k s)) -> obeys U E R (Read k)
| ob_emit e k : E e -> obeys U E R k -> obeys U E R (Emit e k)
| ob_spawn p k : obeys U E R p -> obeys U E R k -> obeys U E R (Spawn p k)
| ob_await reqs k :
    Forall R reqs -> (forall outcomes, obeys U E R (k outcomes)) ->
    obeys U E R (Await reqs k).

(** Every suspended call of [w] stays within the bounds. *)
Definition pendingObey (U : (State -> State) -> Prop) (E : Effect -> Prop)
  (R : Request -> Prop) (w : World) : Prop :=
  Forall (fun t : Task => forall outcomes, obeys U E R (snd t outcomes))
         (pending w).

(** The four requests of the command: the query of the fixed index with 20
    hits a page, and the three POSTs to the configured backend with the
    configured key. *)
Definition knownRequest (preferences : Preferences) (r : Request) : Prop :=
  (exists query, r = IndexSearch "ycb_fts_staging" query 20) \/
  r = Post (ycbUrl preferences ++ "/token") (apiKey preferences) NoBody \/
  (exists text, r = Post (ycbUrl preferences ++ "/search")
                         (apiKey preferences) (SearchBody text 5)) \/
  (exists id, r = Post (ycbUrl preferences ++ "/fetchImagesByIDs")
                       (apiKey preferences) (ImagesBody [id])).

(** A request of the backend, not of the search index. *)
Definition backendRequest (r : Request) : Prop :=
  match r with
  | IndexSearch _ _ _ => False
  | Post _ _ _ => True
  end.

(** What the searches may show and print: a failure toast headed
    [Search Error], or a diagnostic. *)
Definition knownNotice (e : Effect) : Prop :=
  match e with
  | Net _ => False
  | ConsoleError _ => True
  | ShowToast style heading _ => style = Failure /\ heading = "Search Error"
  end.

(** An entry of the log of the command. *)
Definition knownEffect (preferences : Preferences) (e : Effect) : Prop :=
  match e with
  | Net r => knownRequest preferences r
  | _ => knownNotice e
  end.

(** An update that leaves the search client and the lexical results as
    they are. *)
Definition keepsLexical (f : State -> State) : Prop :=
  forall s, searchClient (f s) = searchClient s /\
            meiliSearchResults (f s) = meiliSearchResults s /\
            isLoadingMeiliSearch (f s) = isLoadingMeiliSearch s.

(** A world within bounds: its state is in [I], the entries of its log are
    in [L], and its suspended calls obey [U], [E] and [R]. *)
Definition withinBounds (I : State -> Prop) (L : Effect -> Prop)
  (U : (State -> State) -> Prop) (E : Effect -> Prop) (R : Request -> Prop)
  (w : World) : Prop :=
  I (state w) /\ Forall L (log w) /\ pendingObey U E R w.

(** A state in which the lexical search has never run. *)
Definition lexicalUnused (s : State) : Prop :=
  searchClient s = None /\ meiliSearchResults s = [] /\
  isLoadingMeiliSearch s = false.

(** An entry of a log without a query of the index. *)
Definition noIndexQuery (e : Effect) : Prop :=
  match e with
  | Net r => backendRequest r
  | _ => True
  end.

(** A world in which the lexical search has never run and cannot be
    started by a call in flight. *)
Definition lexicalIdle (w : World) : Prop :=
  withinBounds lexicalUnused noIndexQuery
               keepsLexical knownNotice backendRequest w.

(** An image-type entry with a source, as the backend sends it. *)
Definition diagramEntry : SearchResult :=
  {| id := "s5"; data := "Borrowing rules";
     metadata := {| title := None;
                    author := Some "https://doc.rust-lang.org/book";
                    type := Some "image"; ogDescription := None;
                    ogImages := None |};
     image := None |}.

(** Preferences without an API key. *)
Definition keylessPreferences : Preferences :=
  {| apiKey := ""; ycbUrl := "https://yourcommonbase.com/backend" |}.

(** Typing and asking for a semantic search, with answers from the
    network. *)
Definition keylessTrace : list Event :=
  [ Mount;
    SearchTextChange "rust";
    EnterPress;
    Settle 0 [Fulfilled (Http 200 (JsonResults [diagramEntry]))];
    Settle 0 [Rejected];
    SearchTextChange "rust b" ].

(** An environment in which every step of the copy succeeds, and one in
    which the clipboard refuses the file. *)
Definition copyAllGood : CopyEnv :=
  {| download := Downloaded (Some "image/png"); tempDir := Some "/tmp/ycb-a1";
     writeOk := true; clipboardOk := true |}.

Definition copyClipboardRefuses : CopyEnv :=
  {| download := Downloaded None; tempDir := Some "/tmp/ycb-a1";
     writeOk := true; clipboardOk := false |}.

(** A world in which the token has not come yet. *)
Definition waitingWorld : World :=
  {| state := {| searchText := "ru"; semanticResults := [bookEntry];
                 isLoadingSemanticSearch := false; searchClient := None;
                 meiliSearchResults := []; isLoadingMeiliSearch := false |};
     log := []; pending := [] |}.

(** The text of the last change of the search text among [evs], and [text]
    if there is none. *)
Fixpoint lastTyped (text : string) (evs : list Event) : string :=
  match evs with
  | [] => text
  | SearchTextChange t :: rest => lastTyped t rest
  | _ :: rest => lastTyped text rest
  end.

(** An update that leaves the search text as it is. *)
Definition keepsSearchText (f : State -> State) : Prop :=
  forall s, searchText (f s) = searchText s.

(** ** JavaScript strings: lemmas *)

Module JSFacts.
Import JS.

Lemma append_empty_r s : s ++ "" = s.
Proof. induction s as [|c s IH]; simpl; [reflexivity | now rewrite IH]. Qed.

Lemma append_assoc s t u : (s ++ t) ++ u = s ++ t ++ u.
Proof. induction s as [|c s IH]; simpl; [reflexivity | now rewrite IH]. Qed.

Lemma length_append s t :
  String.length (s ++ t) = String.length s + String.length t.
Proof. induction s as [|c s IH]; simpl; [reflexivity | now rewrite IH]. Qed.

Lemma take_drop n s : take n s ++ drop n s = s.
Proof.
  revert s; induction n as [|n IH]; intros [|c s]; simpl; try reflexivity.
  now rewrite IH.
Qed.

Lemma length_take n s : String.length (take n s) = Nat.min n (String.length s).
Proof.
  revert s; induction n as [|n IH]; intros [|c s]; simpl; try reflexivity.
  now rewrite IH.
Qed.

Lemma take_all n s : String.length s <= n -> take n s = s.
Proof.
  revert s; induction n as [|n IH]; intros [|c s] H; simpl in *;
    try reflexivity; try lia.
  rewrite IH; [reflexivity | lia].
Qed.

Lemma take_app_exact t u : take (String.length t) (t ++ u) = t.
Proof. induction t as [|c t IH]; simpl; [now destruct u | now rewrite IH]. Qed.

Lemma take_app_length n t u : String.length t = n -> take n (t ++ u) = t.
Proof. intros <-. apply take_app_exact. Qed.

Lemma drop_app_exact t u : drop (String.length t) (t ++ u) = u.
Proof. induction t as [|c t IH]; simpl; [now destruct u | exact IH]. Qed.

(** [substring(0, n)] is the first [n] code units. *)
Lemma substring_0 n s : substring 0 n s = take n s.
Proof.
  unfold substring. simpl. rewrite Nat.sub_0_r.
  destruct (Nat.le_ge_cases n (String.length s)) as [H|H].
  - now rewrite Nat.min_l.
  - rewrite Nat.min_r by exact H. rewrite !take_all; auto.
Qed.

Lemma length_substring_0 n s :
  String.length (substring 0 n s) = Nat.min n (String.length s).
Proof. rewrite substring_0. apply length_take. Qed.

(** [substring(0, n)] is a prefix of the text. *)
Lemma substring_0_prefix n s : exists rest, s = substring 0 n s ++ rest.
Proof. exists (drop n s). rewrite substring_0. symmetry. apply take_drop. Qed.

Lemma startsWith_app p t : startsWith (p ++ t) p = true.
Proof.
  induction p as [|a p IH]; simpl; [reflexivity|].
  now rewrite Ascii.eqb_refl, IH.
Qed.

Lemma startsWith_inv s p :
  startsWith s p = true -> s = p ++ drop (String.length p) s.
Proof.
  revert s; induction p as [|a p IH]; intros s H; simpl in *.
  - now destruct s.
  - destruct s as [|b s]; [discriminate|].
    apply andb_true_iff in H as [Hab Hs].
    apply Ascii.eqb_eq in Hab. subst b. f_equal. now apply IH.
Qed.

Lemma startsWith_iff s p :
  startsWith s p = true <-> exists post, s = p ++ post.
Proof.
  split.
  - intros H. eexists. now apply startsWith_inv.
  - intros [post ->]. apply startsWith_app.
Qed.

Lemma includes_head s p : startsWith s p = true -> includes s p = true.
Proof. intros H. destruct s; simpl; now rewrite H. Qed.

(** [includes] finds exactly the texts that contain the pattern. *)
Lemma includes_iff s p :
  includes s p = true <-> exists pre post, s = pre ++ p ++ post.
Proof.
  split.
  - induction s as [|c s IH]; simpl; intros H.
    + rewrite orb_false_r in H. apply startsWith_inv in H.
      exists "", (drop (String.length p) ""). exact H.
    + apply orb_true_iff in H as [H|H].
      * apply startsWith_inv in H. exists "". eexists. exact H.
      * destruct (IH H) as (pre & post & ->). now exists (String c pre), post.
  - intros (pre & post & ->).
    induction pre as [|c pre IH].
    + change ("" ++ p ++ post) with (p ++ post).
      apply includes_head, startsWith_app.
    + simpl. rewrite IH. apply orb_true_r.
Qed.

Lemma includes_prefix s t p : includes s p = true -> includes (s ++ t) p = true.
Proof.
  rewrite !includes_iff. intros (pre & post & ->).
  exists pre, (post ++ t). now rewrite !append_assoc.
Qed.

Lemma includes_take n s p : includes (take n s) p = true -> includes s p = true.
Proof.
  intros H. rewrite <- (take_drop n s). now apply includes_prefix.
Qed.

(** Where no suffix of the pattern starts [tl], a match at the head of
    [t ++ tl] lies within [t]. *)
Lemma startsWith_within tl p t :
  no_overlap tl p = true ->
  startsWith (t ++ tl) p = true -> startsWith t p = true.
Proof.
  revert t; induction p as [|a p IH]; intros t Hno H; [reflexivity|].
  change (no_overlap tl (String a p))
    with (negb (startsWith tl (String a p)) && no_overlap tl p) in Hno.
  apply andb_true_iff in Hno as [Hhd Hno].
  destruct t as [|b t].
  - change ("" ++ tl) with tl in H. rewrite H in Hhd. discriminate.
  - simpl in *. apply andb_true_iff in H as [Hab H].
    rewrite Hab. simpl. now apply IH.
Qed.

(** Appending such a [tl] creates no new occurrence of the pattern. *)
Lemma includes_within tl p t :
  no_overlap tl p = true -> includes tl p = false ->
  includes (t ++ tl) p = true -> includes t p = true.
Proof.
  intros Hno Htl. induction t as [|c t IH]; intros H.
  - simpl append in H. congruence.
  - change (String c t ++ tl) with (String c (t ++ tl)) in H.
    simpl in H. apply orb_true_iff in H as [H|H].
    + change (String c (t ++ tl)) with (String c t ++ tl) in H.
      apply (startsWith_within tl) in H; [|exact Hno].
      now apply includes_head.
    + simpl includes. rewrite (IH H). apply orb_true_r.
Qed.

(** [replace] on a text without the pattern, and on a text with it: the
    occurrence replaced is the one no other occurrence precedes. *)
Lemma replace_spec s p r :
  (includes s p = false /\ replace s p r = s) \/
  (exists pre post,
      s = pre ++ p ++ post /\
      (forall n, occurs_at s p n -> String.length pre <= n) /\
      replace s p r = pre ++ r ++ post).
Proof.
  induction s as [|c s IH].
  - simpl. destruct (startsWith "" p) eqn:E.
    + right. exists "", (drop (String.length p) "").
      split; [now apply startsWith_inv|]. split; [simpl; lia | reflexivity].
    + left. now split.
  - simpl. destruct (startsWith (String c s) p) eqn:E.
    + right. exists "", (drop (String.length p) (String c s)).
      split; [now apply startsWith_inv|]. split; [simpl; lia | reflexivity].
    + destruct IH as [[Hno Hr] | (pre & post & Hs & Hmin & Hr)].
      * left. rewrite Hno, Hr. now split.
      * right. exists (String c pre), post. split; [simpl; now rewrite <- Hs|].
        split; [|simpl; now rewrite Hr].
        intros n (pre' & post' & Hs' & Hn).
        destruct pre' as [|c' pre'].
        -- simpl in Hs'. rewrite Hs', startsWith_app in E. discriminate.
        -- simpl in Hs'. injection Hs' as -> Hs'. simpl in Hn. subst n.
           simpl. apply le_n_S. apply Hmin. now exists pre', post'.
Qed.

Lemma drop_all n s : String.length s <= n -> drop n s = "".
Proof.
  revert s; induction n as [|n IH]; intros [|c s] H; simpl in *;
    try reflexivity; try lia.
  apply IH. lia.
Qed.

Lemma indexOf_bound s p n :
  indexOf s p = Some n -> n + String.length p <= String.length s.
Proof.
  revert n; induction s as [|c s IH]; intros n; simpl.
  - destruct (startsWith "" p) eqn:E; [|discriminate].
    intros [= <-]. apply startsWith_inv in E.
    destruct p; [simpl; lia | discriminate].
  - destruct (startsWith (String c s) p) eqn:E.
    + intros [= <-]. apply startsWith_inv in E.
      apply (f_equal String.length) in E. rewrite length_append in E.
      simpl in *. lia.
    + destruct (indexOf s p) as [k|]; [|discriminate].
      intros [= <-]. specialize (IH k eq_refl). simpl. lia.
Qed.

(** [replace] through [indexOf]: the text before the first occurrence, the
    replacement, and the text after that occurrence. *)
Lemma replace_indexOf s p r n :
  indexOf s p = Some n ->
  replace s p r = take n s ++ r ++ drop (n + String.length p) s.
Proof.
  revert n; induction s as [|c s IH]; intros n; simpl.
  - destruct (startsWith "" p); [|discriminate]. now intros [= <-].
  - destruct (startsWith (String c s) p); [now intros [= <-]|].
    destruct (indexOf s p) as [k|]; [|discriminate].
    intros [= <-]. simpl. now rewrite (IH k eq_refl).
Qed.

Lemma replace_absent s p r : includes s p = false -> replace s p r = s.
Proof.
  intros H. destruct (replace_spec s p r) as [[_ Hr] | (pre & post & Hs & _)].
  - exact Hr.
  - assert (includes s p = true) by (apply includes_iff; eauto). congruence.
Qed.

Lemma replace_head p post r : replace (p ++ post) p r = r ++ post.
Proof.
  assert (H : startsWith (p ++ post) p = true) by apply startsWith_app.
  destruct (p ++ post) eqn:E; simpl; rewrite H, <- E;
    now rewrite drop_app_exact.
Qed.

(** [trim] leaves nothing exactly of the texts that are all white space. *)
Lemma trimStart_blank s : blank s = true -> trimStart s = "".
Proof.
  induction s as [|c s IH]; simpl; [reflexivity|].
  intros H. apply andb_true_iff in H as [Hc Hs]. rewrite Hc. now apply IH.
Qed.

Lemma trimEnd_empty s : trimEnd s = "" -> blank s = true.
Proof.
  induction s as [|c s IH]; simpl; [reflexivity|].
  destruct (trimEnd s) eqn:E; [|discriminate].
  destruct (isWhiteSpace c); [|discriminate]. intros _. now rewrite IH.
Qed.

Lemma trimStart_empty s : trimStart s = "" -> blank s = true.
Proof.
  induction s as [|c s IH]; simpl; [reflexivity|].
  destruct (isWhiteSpace c); [|discriminate]. exact IH.
Qed.

Lemma trimStart_keeps s : blank (trimStart s) = true -> blank s = true.
Proof.
  induction s as [|c s IH]; simpl; [reflexivity|].
  destruct (isWhiteSpace c) eqn:E; simpl; [exact IH|].
  rewrite E. discriminate.
Qed.

Lemma trim_empty_iff s : trim s = "" <-> blank s = true.
Proof.
  unfold trim. split.
  - intros H. apply trimStart_keeps. now apply trimEnd_empty.
  - intros H. now rewrite trimStart_blank.
Qed.

Lemma truthy_trim s : truthy (trim s) = negb (blank s).
Proof.
  unfold truthy. destruct (blank s) eqn:E.
  - apply trim_empty_iff in E. now rewrite E.
  - destruct (trim s) eqn:T; [|reflexivity].
    apply trim_empty_iff in T. congruence.
Qed.

End JSFacts.

(** ** The result normalizer *)

Module NormalizerFacts.
Import JS JSFacts.

Lemma append_inj_length pre pre' x y :
  pre ++ x = pre' ++ y -> String.length pre = String.length pre' ->
  pre = pre' /\ x = y.
Proof.
  revert pre'; induction pre as [|c pre IH]; intros [|c' pre'] H L;
    simpl in *; try discriminate.
  - now split.
  - injection H as -> H. injection L as L.
    destruct (IH _ H L) as [-> ->]. now split.
Qed.

(** [replace] at an occurrence of the pattern that no other precedes. *)
Lemma replace_first s p r pre post :
  s = pre ++ p ++ post ->
  (forall n, occurs_at s p n -> String.length pre <= n) ->
  replace s p r = pre ++ r ++ post.
Proof.
  intros Hs Hmin.
  destruct (replace_spec s p r) as [[Hno _] | (pre' & post' & Hs' & Hmin' & Hr)].
  - assert (includes s p = true) by (apply includes_iff; eauto). congruence.
  - assert (L : String.length pre' = String.length pre).
    { apply Nat.le_antisymm.
      - apply Hmin'. now exists pre, post.
      - apply Hmin. now exists pre', post'. }
    rewrite Hs in Hs'. symmetry in L.
    destruct (append_inj_length _ _ _ _ Hs' L) as [-> E].
    apply (append_inj_length p p) in E as [_ ->]; [exact Hr | reflexivity].
Qed.

(** Where [www.] leads the hostname, or is not in it, the code strips what
    the specification asks for. *)
Lemma replace_www_leading h :
  startsWith h "www." = true -> replace h "www." "" = stripLeadingWww h.
Proof.
  intros H. unfold stripLeadingWww. rewrite H.
  rewrite (startsWith_inv _ _ H) at 1. apply replace_head.
Qed.

Lemma replace_www_absent h :
  includes h "www." = false -> replace h "www." "" = stripLeadingWww h.
Proof.
  intros H. rewrite replace_absent by exact H.
  unfold stripLeadingWww. destruct (startsWith h "www.") eqn:E; [|reflexivity].
  apply includes_head in E. congruence.
Qed.

Section Label.

Variable URL_hostname : string -> option string.

Abbreviation label := (getMetadataDisplay URL_hostname).

Lemma label_no_author m : author m = None -> label m = "".
Proof. intros H. unfold getMetadataDisplay. now rewrite H. Qed.

Lemma label_empty_author m : author m = Some "" -> label m = "".
Proof. intros H. unfold getMetadataDisplay. now rewrite H. Qed.

(** The knowledge base's own domain wins, whatever the URL parser says. *)
Lemma label_own_domain m a :
  author m = Some a -> includes a "yourcommonbase.com" = true ->
  label m = "Your Commonbase".
Proof.
  intros Ha Hin. unfold getMetadataDisplay, getMetadataDisplay_try.
  rewrite Ha, Hin. destruct a; [discriminate Hin | reflexivity].
Qed.

Lemma label_hostname m a h :
  author m = Some a -> a <> "" -> includes a "yourcommonbase.com" = false ->
  URL_hostname a = Some h ->
  label m = replace h "www." "".
Proof.
  intros Ha Hne Hin Hh. unfold getMetadataDisplay, getMetadataDisplay_try.
  rewrite Ha, Hin, Hh. destruct a; [congruence | reflexivity].
Qed.

Lemma label_raw m a :
  author m = Some a -> includes a "yourcommonbase.com" = false ->
  URL_hostname a = None ->
  label m = if (30 <? String.length a)%nat then take 30 a ++ "..." else a.
Proof.
  intros Ha Hin Hh.
  unfold getMetadataDisplay, getMetadataDisplay_try, getMetadataDisplay_catch.
  rewrite Ha, Hin, Hh, substring_0. destruct a; reflexivity.
Qed.

(** A hostname with a leading [www.] loses it. *)
Lemma label_hostname_www m a rest :
  author m = Some a -> a <> "" -> includes a "yourcommonbase.com" = false ->
  URL_hostname a = Some ("www." ++ rest) ->
  label m = rest.
Proof.
  intros Ha Hne Hin Hh. rewrite (label_hostname m a _ Ha Hne Hin Hh).
  apply (replace_head "www." rest "").
Qed.

(** The code gives the label of the specification for every non-empty
    author whose hostname, if it has one, holds [www.] at its start or not
    at all. *)
Lemma label_meets_spec m a :
  author m = Some a -> a <> "" ->
  (forall h, URL_hostname a = Some h ->
             startsWith h "www." = true \/ includes h "www." = false) ->
  label m = spec_sourceLabel URL_hostname a.
Proof.
  intros Ha Hne Hwww. unfold spec_sourceLabel.
  destruct (includes a "yourcommonbase.com") eqn:Hin.
  - now apply (label_own_domain m a).
  - destruct (URL_hostname a) as [h|] eqn:Hh.
    + rewrite (label_hostname m a h Ha Hne Hin Hh).
      destruct (Hwww h eq_refl) as [H|H].
      * now apply replace_www_leading.
      * now apply replace_www_absent.
    + rewrite (label_raw m a Ha Hin Hh).
      destruct (Nat.ltb_spec 30 (String.length a)) as [L|L];
        destruct (Nat.leb_spec (String.length a) 30); try lia; reflexivity.
Qed.

(** The cut text with its marker holds the own domain only if the whole
    text does. *)
Lemma cut_keeps_foreign a :
  includes a "yourcommonbase.com" = false ->
  includes (take 30 a ++ "...") "yourcommonbase.com" = false.
Proof.
  intros H. destruct (includes (take 30 a ++ "...") _) eqn:E; [|reflexivity].
  apply includes_within in E; [|reflexivity|reflexivity].
  apply includes_take in E. congruence.
Qed.

(** The label of a text that is itself a raw label (not a URL, not the own
    domain): a second cut changes nothing. *)
Lemma label_raw_again m a :
  author m = Some a -> includes a "yourcommonbase.com" = false ->
  URL_hostname a = None -> URL_hostname (label m) = None ->
  label (withAuthor m (label m)) = label m.
Proof.
  intros Ha Hin Hh Hl. pose proof (label_raw m a Ha Hin Hh) as E.
  remember (label m) as l eqn:Hl'. clear Hl'.
  destruct (30 <? String.length a)%nat eqn:L.
  - apply Nat.ltb_lt in L.
    assert (Hlen : String.length (take 30 a) = 30)
      by (rewrite length_take; lia).
    rewrite (label_raw (withAuthor m l) l);
      [| reflexivity | rewrite E; now apply cut_keeps_foreign | exact Hl].
    subst l. rewrite length_append, Hlen.
    change (30 <? 30 + String.length "...")%nat with true. cbv iota.
    now rewrite (take_app_length 30).
  - subst l.
    rewrite (label_raw (withAuthor m a) a); [| reflexivity | exact Hin | exact Hh].
    now rewrite L.
Qed.

End Label.

End NormalizerFacts.

(** ** Source label *)

(** C1. The source label of an author whose hostname holds [www.] past its
    start: for the author [https://ewww.io/], whose hostname the platform
    gives as [ewww.io], [getMetadataDisplay] returns [eio], while the label
    of the specification, the hostname with a leading [www.] stripped, is
    [ewww.io]. The code removes the first [www.] wherever it stands. *)
Theorem getMetadataDisplay_inner_www
  (URL_hostname : string -> option string) (m : Metadata) :
  author m = Some "https://ewww.io/" ->
  URL_hostname "https://ewww.io/" = Some "ewww.io" ->
  getMetadataDisplay URL_hostname m = "eio" /\
  spec_sourceLabel URL_hostname "https://ewww.io/" = "ewww.io".
Proof.
  intros Ha Hh. split.
  - rewrite (NormalizerFacts.label_hostname URL_hostname m _ "ewww.io" Ha);
      [reflexivity | discriminate | reflexivity | exact Hh].
  - unfold spec_sourceLabel. rewrite Hh. reflexivity.
Qed.

Lemma getMetadataDisplay_inner_www_witness :
  getMetadataDisplay sample_hostname (withAuthor noMetadata "https://ewww.io/")
  = "eio" /\
  spec_sourceLabel sample_hostname "https://ewww.io/" = "ewww.io".
Proof.
  apply (getMetadataDisplay_inner_www sample_hostname
           (withAuthor noMetadata "https://ewww.io/")); reflexivity.
Defined.

(** The scenarios of the specification that the code meets. *)
Example label_example_com :
  getMetadataDisplay sample_hostname
    (withAuthor noMetadata "https://www.example.com/page") = "example.com".
Proof. reflexivity. Qed.

Example label_own_dashboard :
  getMetadataDisplay sample_hostname
    (withAuthor noMetadata "https://yourcommonbase.com/dashboard")
  = "Your Commonbase".
Proof. reflexivity. Qed.

Example label_long_text :
  getMetadataDisplay sample_hostname
    (withAuthor noMetadata "Notes taken at the reading group in spring")
  = "Notes taken at the reading gro...".
Proof. reflexivity. Qed.

(** C2, as the specification has it, fails: a hostname of more than 30 code
    units is returned whole by the first application and cut by the
    second. *)
Lemma getMetadataDisplay_not_idempotent :
  let m := withAuthor noMetadata
             "https://knowledge-base-attachments.example.com/a" in
  let once := getMetadataDisplay sample_hostname m in
  let twice := getMetadataDisplay sample_hostname (withAuthor m once) in
  once = "knowledge-base-attachments.example.com" /\
  twice = "knowledge-base-attachments.exa..." /\
  twice <> once.
Proof. vm_compute. repeat split. discriminate. Qed.

(** C2, amended. Applying the derivation to its own output gives that
    output again whenever the output does not itself parse as a URL and,
    where it is the hostname of a parsed author, has at most 30 code units
    and does not hold the own domain. *)
Theorem getMetadataDisplay_idempotent
  (URL_hostname : string -> option string) (m : Metadata) :
  URL_hostname (getMetadataDisplay URL_hostname m) = None ->
  (forall a h,
      author m = Some a -> URL_hostname a = Some h ->
      JS.includes a "yourcommonbase.com" = false ->
      String.length (getMetadataDisplay URL_hostname m) <= 30 /\
      JS.includes (getMetadataDisplay URL_hostname m) "yourcommonbase.com"
      = false) ->
  getMetadataDisplay URL_hostname
    (withAuthor m (getMetadataDisplay URL_hostname m))
  = getMetadataDisplay URL_hostname m.
Proof.
  intros Hl Hhost.
  destruct (author m) as [a|] eqn:Ha.
  2: { rewrite (NormalizerFacts.label_no_author _ m Ha). reflexivity. }
  destruct (JS.includes a "yourcommonbase.com") eqn:Hin.
  { rewrite (NormalizerFacts.label_own_domain _ m a Ha Hin) in *.
    rewrite (NormalizerFacts.label_raw _ _ "Your Commonbase");
      [reflexivity | reflexivity | reflexivity | exact Hl]. }
  destruct (String.eqb_spec a "") as [->|Hne].
  { rewrite (NormalizerFacts.label_empty_author _ m Ha). reflexivity. }
  destruct (URL_hostname a) as [h|] eqn:Hh.
  - destruct (Hhost a h eq_refl Hh Hin) as [Hlen Hown].
    remember (getMetadataDisplay URL_hostname m) as l eqn:E. clear E.
    rewrite (NormalizerFacts.label_raw _ _ l); [| reflexivity | exact Hown | exact Hl].
    destruct (Nat.ltb_spec 30 (String.length l)); [lia | reflexivity].
  - now apply (NormalizerFacts.label_raw_again _ m a).
Qed.

Lemma getMetadataDisplay_idempotent_witness :
  getMetadataDisplay sample_hostname
    (withAuthor noMetadata
       (getMetadataDisplay sample_hostname
          (withAuthor noMetadata "https://www.example.com/page")))
  = getMetadataDisplay sample_hostname
      (withAuthor noMetadata "https://www.example.com/page").
Proof.
  apply (getMetadataDisplay_idempotent sample_hostname
           (withAuthor noMetadata "https://www.example.com/page")).
  - reflexivity.
  - intros a h _ _ _. vm_compute. split; [lia | reflexivity].
Defined.

(** Where the cut label of an unparseable author does parse, the second
    application returns the hostname of the label, not the label: the first
    hypothesis of the theorem cannot be dropped. *)
Lemma getMetadataDisplay_cut_label_parses
  (URL_hostname : string -> option string) (m : Metadata) (a h : string) :
  author m = Some a ->
  JS.includes a "yourcommonbase.com" = false ->
  URL_hostname a = None ->
  30 < String.length a ->
  URL_hostname (JS.take 30 a ++ "...") = Some h ->
  getMetadataDisplay URL_hostname m = JS.take 30 a ++ "..." /\
  getMetadataDisplay URL_hostname
    (withAuthor m (getMetadataDisplay URL_hostname m))
  = JS.replace h "www." "".
Proof.
  intros Ha Hin Hnone Hlen Hh.
  assert (E : getMetadataDisplay URL_hostname m = JS.take 30 a ++ "...").
  { rewrite (NormalizerFacts.label_raw _ m a Ha Hin Hnone).
    apply Nat.ltb_lt in Hlen. now rewrite Hlen. }
  split; [exact E|]. rewrite E.
  apply (NormalizerFacts.label_hostname URL_hostname _ (JS.take 30 a ++ "...") h).
  - reflexivity.
  - destruct (JS.take 30 a); discriminate.
  - now apply NormalizerFacts.cut_keeps_foreign.
  - exact Hh.
Qed.

(** ** Entry URL *)

(** C10. [getEntryUrl] deletes the first [/backend] of the configured base
    URL, puts nothing in its place, and appends [/dashboard/entry/] and the
    id: a base URL without [/backend] is used as it is, and the result
    always ends with [/entry/] and the id. *)
Theorem getEntryUrl_first_backend (preferences : Preferences) (id : string) :
  ((~ (exists n, JS.occurs_at (ycbUrl preferences) "/backend" n) /\
    getEntryUrl preferences id = ycbUrl preferences ++ "/dashboard/entry/" ++ id)
   \/
   (exists pre post,
       ycbUrl preferences = pre ++ "/backend" ++ post /\
       (forall n, JS.occurs_at (ycbUrl preferences) "/backend" n ->
                  String.length pre <= n) /\
       getEntryUrl preferences id = pre ++ post ++ "/dashboard/entry/" ++ id))
  /\ JS.ends_with (getEntryUrl preferences id) ("/entry/" ++ id).
Proof.
  unfold getEntryUrl. split.
  - destruct (JSFacts.replace_spec (ycbUrl preferences) "/backend" "")
      as [[Hno Hr] | (pre & post & Hs & Hmin & Hr)].
    + left. split; [|now rewrite Hr].
      intros (n & pre & post & Hs & _).
      assert (JS.includes (ycbUrl preferences) "/backend" = true)
        by (apply JSFacts.includes_iff; eauto).
      congruence.
    + right. exists pre, post. split; [exact Hs|]. split; [exact Hmin|].
      rewrite Hr. simpl. now rewrite JSFacts.append_assoc.
  - exists (JS.replace (ycbUrl preferences) "/backend" "" ++ "/dashboard").
    now rewrite JSFacts.append_assoc.
Qed.

(** C7, as the specification has it, fails: with a base URL that goes on
    after [/backend], removing the segment and appending the dashboard path
    is not the same as putting the dashboard segment in its place. *)
Lemma getEntryUrl_not_substitution :
  let preferences := {| apiKey := "secret";
                        ycbUrl := "https://example.com/backend/v2" |} in
  getEntryUrl preferences "42" = "https://example.com/v2/dashboard/entry/42" /\
  spec_entryUrl (ycbUrl preferences) "42"
  = "https://example.com/dashboard/v2/entry/42" /\
  getEntryUrl preferences "42" <> spec_entryUrl (ycbUrl preferences) "42".
Proof. vm_compute. repeat split. discriminate. Qed.

(** C7, amended. Where the first [/backend] of the base URL is at its very
    end, the entry URL is the base URL with [/dashboard] in the place of
    [/backend], followed by [/entry/] and the id, and so ends with the id. *)
Theorem getEntryUrl_substitution (preferences : Preferences) (id : string) :
  JS.indexOf (ycbUrl preferences) "/backend"
  = Some (String.length (ycbUrl preferences) - String.length "/backend") ->
  getEntryUrl preferences id = spec_entryUrl (ycbUrl preferences) id /\
  JS.ends_with (getEntryUrl preferences id) ("/entry/" ++ id).
Proof.
  intros Hi. unfold getEntryUrl, spec_entryUrl.
  pose proof (JSFacts.indexOf_bound _ _ _ Hi) as Hb.
  rewrite (JSFacts.replace_indexOf _ _ "" _ Hi).
  rewrite (JSFacts.replace_indexOf _ _ "/dashboard" _ Hi).
  rewrite JSFacts.drop_all by lia.
  simpl. rewrite !JSFacts.append_empty_r, !JSFacts.append_assoc. split.
  - reflexivity.
  - eexists (_ ++ "/dashboard"). now rewrite JSFacts.append_assoc.
Qed.

Lemma getEntryUrl_substitution_witness :
  getEntryUrl defaultPreferences "42"
  = spec_entryUrl (ycbUrl defaultPreferences) "42" /\
  JS.ends_with (getEntryUrl defaultPreferences "42") ("/entry/" ++ "42").
Proof.
  apply (getEntryUrl_substitution defaultPreferences "42"). reflexivity.
Defined.

(** ** Title and subtitle *)

Lemma or_else_field (field : option string) (fallback t : string) :
  field = Some t -> t <> "" -> JS.or_else field fallback = t.
Proof. intros -> H. destruct t; [congruence | reflexivity]. Qed.

Lemma or_else_fallback (field : option string) (fallback : string) :
  field = None \/ field = Some "" -> JS.or_else field fallback = fallback.
Proof. intros [-> | ->]; reflexivity. Qed.

(** C8, as the specification has it, fails: a title that is present but
    empty is not displayed, the start of [data] is. *)
Lemma itemTitle_empty_title :
  title (metadata untitledEntry) = Some "" /\
  itemTitle untitledEntry = "hello..." /\
  itemTitle untitledEntry <> "".
Proof. repeat split. discriminate. Qed.

(** C8, amended. The title is [metadata.title] if it is present and not
    empty, and otherwise the first 60 code units of [data] followed by
    [...]; the subtitle is [metadata.ogDescription] if it is present and not
    empty, and otherwise the first 100 code units of [data] followed by
    [...]. *)
Theorem itemTitle_itemSubtitle_spec (result : SearchResult) :
  (forall t, title (metadata result) = Some t -> t <> "" ->
             itemTitle result = t) /\
  (title (metadata result) = None \/ title (metadata result) = Some "" ->
   exists head rest,
     data result = head ++ rest /\
     String.length head = Nat.min 60 (String.length (data result)) /\
     itemTitle result = head ++ "...") /\
  (forall d, ogDescription (metadata result) = Some d -> d <> "" ->
             itemSubtitle result = d) /\
  (ogDescription (metadata result) = None \/
   ogDescription (metadata result) = Some "" ->
   exists head rest,
     data result = head ++ rest /\
     String.length head = Nat.min 100 (String.length (data result)) /\
     itemSubtitle result = head ++ "...").
Proof.
  unfold itemTitle, itemSubtitle. repeat split.
  - intros t Ht Hne. now apply or_else_field.
  - intros H. rewrite (or_else_fallback _ _ H), JSFacts.substring_0.
    exists (JS.take 60 (data result)), (JS.drop 60 (data result)).
    now rewrite JSFacts.take_drop, JSFacts.length_take.
  - intros d Hd Hne. now apply or_else_field.
  - intros H. rewrite (or_else_fallback _ _ H), JSFacts.substring_0.
    exists (JS.take 100 (data result)), (JS.drop 100 (data result)).
    now rewrite JSFacts.take_drop, JSFacts.length_take.
Qed.

Lemma itemTitle_itemSubtitle_spec_witness :
  itemTitle bookEntry = "The Rust Book" /\
  itemSubtitle bookEntry = "Ownership" /\
  (exists head rest,
     data untitledEntry = head ++ rest /\
     String.length head = Nat.min 60 (String.length (data untitledEntry)) /\
     itemTitle untitledEntry = head ++ "...") /\
  (exists head rest,
     data untitledEntry = head ++ rest /\
     String.length head = Nat.min 100 (String.length (data untitledEntry)) /\
     itemSubtitle untitledEntry = head ++ "...").
Proof.
  destruct (itemTitle_itemSubtitle_spec bookEntry) as (T & _ & S & _).
  destruct (itemTitle_itemSubtitle_spec untitledEntry) as (_ & T' & _ & S').
  split; [apply (T "The Rust Book"); [reflexivity | discriminate]|].
  split; [apply (S "Ownership"); [reflexivity | discriminate]|].
  split; [apply T'; right; reflexivity | apply S'; left; reflexivity].
Defined.

(** ** Running the command *)

Module AsyncFacts.

Lemma run_emitAll es k w :
  run (emitAll es k) w
  = run k {| state := state w; log := (log w ++ es)%list; pending := pending w |}.
Proof.
  revert w; induction es as [|e es IH]; intros w; simpl.
  - rewrite app_nil_r. now destruct w.
  - rewrite IH. simpl. now rewrite <- app_assoc.
Qed.

Lemma seq_emitAll es k q : seq (emitAll es k) q = emitAll es (seq k q).
Proof. induction es as [|e es IH]; simpl; [reflexivity | now rewrite IH]. Qed.

Lemma nth_error_last {A} (l : list A) x : nth_error (l ++ [x]) (length l) = Some x.
Proof. rewrite nth_error_app2, Nat.sub_diag by lia. reflexivity. Qed.

Lemma removeAt_last {A} (l : list A) x : removeAt (length l) (l ++ [x]) = l.
Proof.
  unfold removeAt.
  rewrite skipn_all2 by (rewrite length_app; simpl; lia).
  rewrite firstn_app, Nat.sub_diag, firstn_all. simpl.
  now rewrite !app_nil_r.
Qed.

Lemma Forall_removeAt {A} (P : A -> Prop) i l :
  Forall P l -> Forall P (removeAt i l).
Proof.
  intros H. unfold removeAt. apply Forall_app. split.
  - rewrite <- (firstn_skipn i l) in H. now apply Forall_app in H.
  - rewrite <- (firstn_skipn (S i) l) in H. now apply Forall_app in H.
Qed.

Section Loop.

Variable preferences : Preferences.

(** Settling the call that was suspended last. *)
Lemma step_settle_last st lg tasks reqs k outcomes :
  length outcomes = length reqs ->
  step preferences
       {| state := st; log := lg; pending := (tasks ++ [(reqs, k)])%list |}
       (Settle (length tasks) outcomes)
  = run (k outcomes) {| state := st; log := lg; pending := tasks |}.
Proof.
  intros L. unfold step. simpl pending.
  rewrite nth_error_last, removeAt_last.
  apply Nat.eqb_eq in L. now rewrite L.
Qed.

(** *** The lexical search *)

Lemma performMeiliSearch_blank query w :
  JS.blank query = true ->
  run (performMeiliSearch preferences query) w
  = {| state := setMeiliSearchResults [] (state w); log := log w;
       pending := pending w |}.
Proof.
  intros H. unfold performMeiliSearch. simpl.
  rewrite JSFacts.truthy_trim, H. simpl. now rewrite orb_true_r.
Qed.

Lemma performMeiliSearch_no_client query w :
  searchClient (state w) = None ->
  run (performMeiliSearch preferences query) w
  = {| state := setMeiliSearchResults [] (state w); log := log w;
       pending := pending w |}.
Proof. intros H. unfold performMeiliSearch. simpl. now rewrite H. Qed.

Lemma performMeiliSearch_start query w client :
  searchClient (state w) = Some client -> JS.blank query = false ->
  run (performMeiliSearch preferences query) w
  = {| state := setIsLoadingMeiliSearch true (state w);
       log := (log w ++ [Net (meiliRequest query)])%list;
       pending := (pending w ++ [([meiliRequest query],
                                  performMeiliSearch_settled preferences)])%list |}.
Proof.
  intros Hc Hb. unfold performMeiliSearch. simpl.
  rewrite Hc, JSFacts.truthy_trim, Hb. reflexivity.
Qed.

Lemma performMeiliSearch_settled_failure outcomes w :
  meiliResponse outcomes = None ->
  run (performMeiliSearch_settled preferences outcomes) w
  = {| state := setIsLoadingMeiliSearch false
                  (setMeiliSearchResults [] (state w));
       log := (log w ++ [ConsoleError "MeiliSearch error:"])%list;
       pending := pending w |}.
Proof. intros H. unfold performMeiliSearch_settled. now rewrite H. Qed.

(** After the hits have come, the image requests of the image-type hits go
    out together; when they have settled the hydrated hits are stored. *)
Lemma fetchImage_logs_no_request (l : list (SearchResult * Outcome)) :
  filter isNet
    (concat (map (fun ro => fetchImage_log (id (fst ro)) (snd ro)) l)) = [].
Proof.
  induction l as [|[r o] l IH]; simpl; [reflexivity|].
  rewrite filter_app, IH, app_nil_r. unfold fetchImage_log.
  destruct (fetchImage_try _ _); reflexivity.
Qed.

Lemma fetchImage_logs_no_toast (l : list (SearchResult * Outcome)) :
  filter isToast
    (concat (map (fun ro => fetchImage_log (id (fst ro)) (snd ro)) l)) = [].
Proof.
  induction l as [|[r o] l IH]; simpl; [reflexivity|].
  rewrite filter_app, IH, app_nil_r. unfold fetchImage_log.
  destruct (fetchImage_try _ _); reflexivity.
Qed.

(** After the hits have come, the image requests of the image-type hits go
    out together. *)
Lemma performMeiliSearch_settled_hits hits w :
  run (performMeiliSearch_settled preferences [Fulfilled (Hits hits)]) w
  = {| state := state w;
       log := (log w ++ map Net (imageRequests preferences hits))%list;
       pending := (pending w ++ [(imageRequests preferences hits,
                                  meiliImages_settled hits)])%list |}.
Proof. reflexivity. Qed.

(** When they have settled the hydrated hits are stored. *)
Lemma meiliImages_settled_run hits outcomes w :
  run (meiliImages_settled hits outcomes) w
  = {| state := setIsLoadingMeiliSearch false
                  (setMeiliSearchResults (hydrate hits outcomes) (state w));
       log := (log w ++ concat (map (fun ro => fetchImage_log (id (fst ro)) (snd ro))
                                    (combine (filter isImage hits) outcomes)))%list;
       pending := pending w |}.
Proof.
  unfold meiliImages_settled, loadImages_settled.
  rewrite seq_emitAll, run_emitAll. reflexivity.
Qed.

(** *** The semantic search *)

Lemma performSemanticSearch_blank query w :
  JS.blank query = true ->
  run (performSemanticSearch preferences query) w
  = {| state := setSemanticResults [] (state w); log := log w;
       pending := pending w |}.
Proof.
  intros H. unfold performSemanticSearch.
  rewrite JSFacts.truthy_trim, H. reflexivity.
Qed.

Lemma performSemanticSearch_start query w :
  JS.blank query = false ->
  run (performSemanticSearch preferences query) w
  = {| state := setIsLoadingSemanticSearch true (state w);
       log := (log w ++ [Net (semanticRequest preferences query)])%list;
       pending := (pending w ++ [([semanticRequest preferences query],
                                  performSemanticSearch_settled preferences)])%list |}.
Proof.
  intros H. unfold performSemanticSearch.
  rewrite JSFacts.truthy_trim, H. reflexivity.
Qed.

(** A rejected request and a response that is not [ok] both make the [try]
    block throw, whatever the status and the body. *)
Lemma semanticResponse_failure outcome :
  outcome = Rejected \/
  (exists status body, outcome = Fulfilled (Http status body) /\ ok status = false) ->
  semanticResponse [outcome] = None.
Proof.
  intros [-> | (status & body & -> & H)]; simpl; [reflexivity|].
  now rewrite H.
Qed.

Lemma performSemanticSearch_settled_failure outcomes w :
  semanticResponse outcomes = None ->
  run (performSemanticSearch_settled preferences outcomes) w
  = {| state := setIsLoadingSemanticSearch false
                  (setSemanticResults [] (state w));
       log := (log w ++ [ConsoleError "Semantic search error:";
                         ShowToast Failure "Search Error"
                                   "Failed to perform semantic search"])%list;
       pending := pending w |}.
Proof.
  intros H. unfold performSemanticSearch_settled. rewrite H. simpl.
  now rewrite <- app_assoc.
Qed.

Lemma performSemanticSearch_settled_results status results w :
  ok status = true ->
  run (performSemanticSearch_settled preferences
         [Fulfilled (Http status (JsonResults results))]) w
  = {| state := state w;
       log := (log w ++ map Net (imageRequests preferences results))%list;
       pending := (pending w ++ [(imageRequests preferences results,
                                  semanticImages_settled results)])%list |}.
Proof.
  intros H. unfold performSemanticSearch_settled, semanticResponse.
  rewrite H. reflexivity.
Qed.

Lemma semanticImages_settled_run results outcomes w :
  run (semanticImages_settled results outcomes) w
  = {| state := setIsLoadingSemanticSearch false
                  (setSemanticResults (hydrate results outcomes) (state w));
       log := (log w ++ concat (map (fun ro => fetchImage_log (id (fst ro)) (snd ro))
                                    (combine (filter isImage results) outcomes)))%list;
       pending := pending w |}.
Proof.
  unfold semanticImages_settled, loadImages_settled.
  rewrite seq_emitAll, run_emitAll. reflexivity.
Qed.

(** *** Hydration *)

Lemma hydrate_hydratedFrom results outcomes :
  Forall2 hydratedFrom results (hydrate results outcomes).
Proof.
  revert outcomes; induction results as [|r rest IH]; intros outcomes; simpl.
  - constructor.
  - destruct (isImage r) eqn:E.
    + assert (T : type (metadata r) = Some "image").
      { unfold isImage in E. destruct (type (metadata r)) as [t|]; [|discriminate].
        apply String.eqb_eq in E. now subst t. }
      destruct outcomes as [|o os]; constructor; try apply IH;
        unfold hydratedFrom; simpl; repeat split; congruence.
    + constructor; [|apply IH].
      unfold hydratedFrom. repeat split.
Qed.

Lemma length_imageRequests results :
  length (imageRequests preferences results) = length (filter isImage results).
Proof. unfold imageRequests. apply length_map. Qed.

(** *** Programs that do not write the semantic results *)

Lemma semanticFree_seq p q :
  semanticFree p -> semanticFree q -> semanticFree (seq p q).
Proof.
  intros Hp Hq. induction Hp; simpl; try (constructor; auto); exact Hq.
Qed.

Lemma semanticFree_emitAll es k : semanticFree k -> semanticFree (emitAll es k).
Proof. intros H. induction es; simpl; [exact H | now constructor]. Qed.

Lemma semanticFree_meili_settled outcomes :
  semanticFree (performMeiliSearch_settled preferences outcomes).
Proof.
  unfold performMeiliSearch_settled. apply semanticFree_seq.
  - destruct (meiliResponse outcomes) as [hits|].
    + unfold loadImages. constructor. intros os. unfold loadImages_settled.
      apply semanticFree_emitAll. constructor; [|constructor]. now intros s.
    + repeat constructor.
  - repeat constructor.
Qed.

Lemma semanticFree_performMeiliSearch query :
  semanticFree (performMeiliSearch preferences query).
Proof.
  unfold performMeiliSearch. constructor. intros st.
  destruct (_ || _).
  - repeat constructor.
  - constructor; [now intros s|]. constructor. apply semanticFree_meili_settled.
Qed.

Lemma isImage_true h : isImage h = true <-> type (metadata h) = Some "image".
Proof.
  unfold isImage. destruct (type (metadata h)) as [t|]; [|split; discriminate].
  rewrite String.eqb_eq. split; [now intros -> | now intros [= ->]].
Qed.

Lemma imageRequests_spec results :
  Forall (requestOfImageEntry preferences results)
         (imageRequests preferences results).
Proof.
  unfold imageRequests. rewrite Forall_map, Forall_forall.
  intros h Hh. apply filter_In in Hh as [Hin Him].
  exists h. split; [exact Hin|]. split; [now apply isImage_true | reflexivity].
Qed.

(** Such a program leaves the semantic results as they are. *)
Lemma run_semanticFree_state p :
  semanticFree p ->
  forall w, semanticResults (state (run p w)) = semanticResults (state w).
Proof.
  induction 1 as [|f k Hf Hk IH|k Hk IH|e k Hk IH|p k Hp IHp Hk IHk|reqs k Hk IH];
    intros w; simpl.
  - reflexivity.
  - rewrite IH. simpl. apply Hf.
  - apply IH.
  - now rewrite IH.
  - now rewrite IHk, IHp.
  - reflexivity.
Qed.

(** It suspends only calls of its own kind. *)
Lemma run_semanticFree_pending p :
  semanticFree p ->
  forall w, noSemanticInFlight w -> noSemanticInFlight (run p w).
Proof.
  induction 1 as [|f k Hf Hk IH|k Hk IH|e k Hk IH|p k Hp IHp Hk IHk|reqs k Hk IH];
    intros w Hw; simpl.
  - exact Hw.
  - now apply IH.
  - now apply IH.
  - now apply IH.
  - now apply IHk, IHp.
  - unfold noSemanticInFlight. simpl.
    apply Forall_app. split; [exact Hw|]. constructor; [exact Hk | constructor].
Qed.

Lemma run_semanticFree p :
  semanticFree p ->
  forall w, noSemanticInFlight w ->
  semanticResults (state (run p w)) = semanticResults (state w) /\
  noSemanticInFlight (run p w).
Proof.
  intros Hp w Hw. split.
  - now apply run_semanticFree_state.
  - now apply run_semanticFree_pending.
Qed.

(** With no semantic search in flight, the events of the network leave the
    semantic results as they are. *)
Lemma step_settle_semantic w i outcomes :
  noSemanticInFlight w ->
  semanticResults (state (step preferences w (Settle i outcomes)))
  = semanticResults (state w) /\
  noSemanticInFlight (step preferences w (Settle i outcomes)).
Proof.
  intros Hw. unfold step.
  destruct (nth_error (pending w) i) as [[reqs k]|] eqn:E; [|now split].
  destruct (length outcomes =? length reqs)%nat; [|now split].
  assert (Hk : semanticFree (k outcomes)).
  { apply nth_error_In in E. unfold noSemanticInFlight in Hw.
    rewrite Forall_forall in Hw. apply (Hw _ E). }
  apply (run_semanticFree _ Hk
           {| state := state w; log := log w; pending := removeAt i (pending w) |}).
  apply Forall_removeAt, Hw.
Qed.

Lemma runTrace_settle_semantic evs : forall w,
  forallb isSettle evs = true -> noSemanticInFlight w ->
  semanticResults (state (runTrace preferences w evs))
  = semanticResults (state w).
Proof.
  induction evs as [|ev evs IH]; intros w Hevs Hw; simpl; [reflexivity|].
  simpl in Hevs. apply andb_true_iff in Hevs as [Hev Hevs].
  destruct ev as [| | |i outcomes]; try discriminate.
  destruct (step_settle_semantic w i outcomes Hw) as [E I].
  change (runTrace preferences w (Settle i outcomes :: evs))
    with (runTrace preferences (step preferences w (Settle i outcomes)) evs).
  rewrite (IH _ Hevs I). exact E.
Qed.

(** *** The handler of the search text *)

Lemma setSemanticResults_same s v :
  semanticResults s = v -> setSemanticResults v s = s.
Proof. intros <-. now destruct s. Qed.

(** The handler runs the start of the lexical search on the new text and
    leaves the semantic results empty. *)
Lemma handleSearchTextChange_run text w :
  let w1 := run (performMeiliSearch preferences text)
              {| state := setSearchText text (state w); log := log w;
                 pending := pending w |} in
  run (handleSearchTextChange preferences text) w
  = {| state := setSemanticResults [] (state w1); log := log w1;
       pending := pending w1 |}.
Proof.
  intros w1.
  change (run (handleSearchTextChange preferences text) w)
    with (run (if (0 <? length (semanticResults (state w)))%nat
               then Update (setSemanticResults []) Done else Done) w1).
  destruct (semanticResults (state w)) as [|r rs] eqn:E; [|reflexivity].
  simpl. rewrite setSemanticResults_same; [now destruct w1|].
  unfold w1. rewrite run_semanticFree_state
    by apply semanticFree_performMeiliSearch.
  exact E.
Qed.

(** *** Events other than the semantic trigger *)

Lemma semanticFree_initializeMeiliSearch :
  semanticFree (initializeMeiliSearch preferences).
Proof.
  unfold initializeMeiliSearch. constructor. intros outcomes.
  destruct (getToken_try outcomes); repeat constructor.
Qed.

(** With no semantic search in flight, an event that is not the semantic
    trigger brings none in flight and leaves empty semantic results
    empty. *)
Lemma step_no_trigger_semantic w ev :
  isEnterPress ev = false ->
  noSemanticInFlight w ->
  noSemanticInFlight (step preferences w ev) /\
  (semanticResults (state w) = [] ->
   semanticResults (state (step preferences w ev)) = []).
Proof.
  intros Hev Hw. destruct ev as [|text| |i outcomes]; [| |discriminate|].
  - unfold step. destruct (JS.truthy _); [|now split].
    destruct (run_semanticFree _ semanticFree_initializeMeiliSearch w Hw)
      as [E I].
    split; [exact I | congruence].
  - unfold step. rewrite handleSearchTextChange_run. split; [|reflexivity].
    unfold noSemanticInFlight. cbn [pending].
    apply (run_semanticFree_pending _ (semanticFree_performMeiliSearch text)
             {| state := setSearchText text (state w); log := log w;
                pending := pending w |}).
    exact Hw.
  - destruct (step_settle_semantic w i outcomes Hw) as [E I].
    split; [exact I | congruence].
Qed.

Lemma runTrace_no_trigger_semantic evs : forall w,
  noEnterPress evs = true ->
  noSemanticInFlight w -> semanticResults (state w) = [] ->
  semanticResults (state (runTrace preferences w evs)) = [] /\
  noSemanticInFlight (runTrace preferences w evs).
Proof.
  induction evs as [|ev evs IH]; intros w Hevs Hw He; [now split|].
  unfold noEnterPress in Hevs. simpl in Hevs.
  apply andb_true_iff in Hevs as [Hev Hevs]. apply negb_true_iff in Hev.
  destruct (step_no_trigger_semantic w ev Hev Hw) as [I E].
  change (runTrace preferences w (ev :: evs))
    with (runTrace preferences (step preferences w ev) evs).
  apply IH; auto.
Qed.

End Loop.

End AsyncFacts.

(** ** Blank queries *)

(** C3. For a query that is empty or all white space, the lexical search and
    the semantic search each leave their result sequence empty and return:
    nothing is added to the log, so no request is sent, no call is left
    suspended, and every other field of the state is as before. *)
Theorem blank_query_no_request
  (preferences : Preferences) (query : string) (w : World) :
  JS.blank query = true ->
  JS.trim query = "" /\
  (meiliSearchResults (state (run (performMeiliSearch preferences query) w))
   = [] /\
   log (run (performMeiliSearch preferences query) w) = log w /\
   pending (run (performMeiliSearch preferences query) w) = pending w /\
   searchText (state (run (performMeiliSearch preferences query) w))
   = searchText (state w) /\
   semanticResults (state (run (performMeiliSearch preferences query) w))
   = semanticResults (state w) /\
   isLoadingMeiliSearch (state (run (performMeiliSearch preferences query) w))
   = isLoadingMeiliSearch (state w) /\
   isLoadingSemanticSearch
     (state (run (performMeiliSearch preferences query) w))
   = isLoadingSemanticSearch (state w) /\
   searchClient (state (run (performMeiliSearch preferences query) w))
   = searchClient (state w)) /\
  (semanticResults (state (run (performSemanticSearch preferences query) w))
   = [] /\
   log (run (performSemanticSearch preferences query) w) = log w /\
   pending (run (performSemanticSearch preferences query) w) = pending w /\
   searchText (state (run (performSemanticSearch preferences query) w))
   = searchText (state w) /\
   meiliSearchResults
     (state (run (performSemanticSearch preferences query) w))
   = meiliSearchResults (state w) /\
   isLoadingMeiliSearch
     (state (run (performSemanticSearch preferences query) w))
   = isLoadingMeiliSearch (state w) /\
   isLoadingSemanticSearch
     (state (run (performSemanticSearch preferences query) w))
   = isLoadingSemanticSearch (state w) /\
   searchClient (state (run (performSemanticSearch preferences query) w))
   = searchClient (state w)).
Proof.
  intros H. split; [now apply JSFacts.trim_empty_iff|]. split.
  - rewrite AsyncFacts.performMeiliSearch_blank by exact H.
    cbn [state log pending]. now repeat split.
  - rewrite AsyncFacts.performSemanticSearch_blank by exact H.
    cbn [state log pending]. now repeat split.
Qed.

Lemma blank_query_no_request_witness :
  meiliSearchResults
    (state (run (performMeiliSearch defaultPreferences "   ") busyWorld)) = [] /\
  log (run (performMeiliSearch defaultPreferences "   ") busyWorld)
  = log busyWorld /\
  semanticResults
    (state (run (performSemanticSearch defaultPreferences "   ") busyWorld))
  = [] /\
  log (run (performSemanticSearch defaultPreferences "   ") busyWorld)
  = log busyWorld.
Proof.
  destruct (blank_query_no_request defaultPreferences "   " busyWorld eq_refl)
    as (_ & (L1 & L2 & _) & (S1 & S2 & _)).
  repeat split; assumption.
Defined.

(** ** Failing searches *)

(** C4. A semantic search on a non-blank query whose request is rejected,
    or answered with a status outside 200..299 whatever the body, ends in
    one and the same way: after the diagnostic, one failure toast is shown,
    [semanticResults] is empty, the loading flag is down, and the lexical
    results are those from before the search. *)
Theorem semantic_failure_toast_and_clear
  (preferences : Preferences) (query : string) (w : World) (outcome : Outcome) :
  JS.blank query = false ->
  outcome = Rejected \/
  (exists status body,
      outcome = Fulfilled (Http status body) /\ ok status = false) ->
  let w' := step preferences
              (run (performSemanticSearch preferences query) w)
              (Settle (length (pending w)) [outcome]) in
  log w' = (log w ++ [Net (semanticRequest preferences query);
                      ConsoleError "Semantic search error:";
                      ShowToast Failure "Search Error"
                                "Failed to perform semantic search"])%list /\
  semanticResults (state w') = [] /\
  meiliSearchResults (state w') = meiliSearchResults (state w) /\
  isLoadingSemanticSearch (state w') = false /\
  pending w' = pending w.
Proof.
  intros Hb Hfail w'. subst w'.
  rewrite (AsyncFacts.performSemanticSearch_start preferences query w Hb).
  rewrite AsyncFacts.step_settle_last by reflexivity.
  rewrite AsyncFacts.performSemanticSearch_settled_failure
    by now apply AsyncFacts.semanticResponse_failure.
  simpl. rewrite <- app_assoc. repeat split.
Qed.

Lemma semantic_failure_toast_and_clear_witness :
  let w' := step defaultPreferences
              (run (performSemanticSearch defaultPreferences "rust") busyWorld)
              (Settle (length (pending busyWorld))
                      [Fulfilled (Http 401 (JsonError "Invalid API key"))]) in
  log w' = (log busyWorld ++
            [Net (semanticRequest defaultPreferences "rust");
             ConsoleError "Semantic search error:";
             ShowToast Failure "Search Error"
                       "Failed to perform semantic search"])%list /\
  semanticResults (state w') = [] /\
  meiliSearchResults (state w') = meiliSearchResults (state busyWorld) /\
  isLoadingSemanticSearch (state w') = false /\
  pending w' = pending busyWorld.
Proof.
  apply (semantic_failure_toast_and_clear defaultPreferences "rust" busyWorld
           (Fulfilled (Http 401 (JsonError "Invalid API key")))).
  - reflexivity.
  - right. exists 401%Z, (JsonError "Invalid API key"). split; reflexivity.
Defined.

(** C9. A lexical search on a non-blank query, with the search client in
    place, whose index query fails: the diagnostic is logged, the lexical
    results are empty, the loading flag is down, and no toast is shown (the
    toasts of the log are those from before the search). *)
Theorem lexical_failure_silent
  (preferences : Preferences) (query client : string) (w : World)
  (outcome : Outcome) :
  searchClient (state w) = Some client ->
  JS.blank query = false ->
  meiliResponse [outcome] = None ->
  let w' := step preferences
              (run (performMeiliSearch preferences query) w)
              (Settle (length (pending w)) [outcome]) in
  log w' = (log w ++ [Net (meiliRequest query);
                      ConsoleError "MeiliSearch error:"])%list /\
  meiliSearchResults (state w') = [] /\
  filter isToast (log w') = filter isToast (log w) /\
  isLoadingMeiliSearch (state w') = false /\
  semanticResults (state w') = semanticResults (state w) /\
  pending w' = pending w.
Proof.
  intros Hc Hb Hfail w'. subst w'.
  rewrite (AsyncFacts.performMeiliSearch_start preferences query w client Hc Hb).
  rewrite AsyncFacts.step_settle_last by reflexivity.
  rewrite AsyncFacts.performMeiliSearch_settled_failure by exact Hfail.
  simpl. rewrite <- app_assoc. repeat split.
  rewrite filter_app. simpl. apply app_nil_r.
Qed.

Lemma lexical_failure_silent_witness :
  let w' := step defaultPreferences
              (run (performMeiliSearch defaultPreferences "rust") busyWorld)
              (Settle (length (pending busyWorld)) [Rejected]) in
  log w' = (log busyWorld ++ [Net (meiliRequest "rust");
                              ConsoleError "MeiliSearch error:"])%list /\
  meiliSearchResults (state w') = [] /\
  filter isToast (log w') = filter isToast (log busyWorld) /\
  isLoadingMeiliSearch (state w') = false /\
  semanticResults (state w') = semanticResults (state busyWorld) /\
  pending w' = pending busyWorld.
Proof.
  apply (lexical_failure_silent defaultPreferences "rust" "token" busyWorld
           Rejected); reflexivity.
Defined.

(** ** Images *)

(** C6. In both searches, when the results have come the requests sent to
    the image resolver are those of the image-type entries of the batch and
    no others, and when they have settled every entry whose type is not
    [image] is stored as it was received: its image field is not written. *)
Theorem image_only_for_image_type
  (preferences : Preferences) (query client : string) (w : World)
  (hits results : list SearchResult) (status : Z)
  (settledHits settledResults : list Outcome) :
  searchClient (state w) = Some client ->
  JS.blank query = false ->
  ok status = true ->
  length settledHits = length (filter isImage hits) ->
  length settledResults = length (filter isImage results) ->
  let n := length (pending w) in
  let lexical := step preferences
                   (run (performMeiliSearch preferences query) w)
                   (Settle n [Fulfilled (Hits hits)]) in
  let semantic := step preferences
                    (run (performSemanticSearch preferences query) w)
                    (Settle n [Fulfilled (Http status (JsonResults results))]) in
  let lexical' := step preferences lexical (Settle n settledHits) in
  let semantic' := step preferences semantic (Settle n settledResults) in
  (log lexical = (log w ++ Net (meiliRequest query)
                       :: map Net (imageRequests preferences hits))%list /\
   Forall (requestOfImageEntry preferences hits)
          (imageRequests preferences hits) /\
   filter isNet (log lexical') = filter isNet (log lexical) /\
   Forall2 hydratedFrom hits (meiliSearchResults (state lexical'))) /\
  (log semantic = (log w ++ Net (semanticRequest preferences query)
                        :: map Net (imageRequests preferences results))%list /\
   Forall (requestOfImageEntry preferences results)
          (imageRequests preferences results) /\
   filter isNet (log semantic') = filter isNet (log semantic) /\
   Forall2 hydratedFrom results (semanticResults (state semantic'))).
Proof.
  intros Hc Hb Hok Lh Lr n lexical semantic lexical' semantic'.
  subst lexical' semantic' lexical semantic n. split.
  - rewrite (AsyncFacts.performMeiliSearch_start preferences query w client Hc Hb).
    rewrite AsyncFacts.step_settle_last by reflexivity.
    rewrite AsyncFacts.performMeiliSearch_settled_hits. cbn [state log pending].
    rewrite AsyncFacts.step_settle_last
      by (now rewrite AsyncFacts.length_imageRequests).
    rewrite AsyncFacts.meiliImages_settled_run. cbn [state log pending].
    rewrite <- app_assoc. split; [reflexivity|].
    split; [apply AsyncFacts.imageRequests_spec|]. split.
    + rewrite (filter_app _ (_ ++ _)%list), AsyncFacts.fetchImage_logs_no_request.
      apply app_nil_r.
    + apply AsyncFacts.hydrate_hydratedFrom.
  - rewrite (AsyncFacts.performSemanticSearch_start preferences query w Hb).
    rewrite AsyncFacts.step_settle_last by reflexivity.
    rewrite AsyncFacts.performSemanticSearch_settled_results by exact Hok.
    cbn [state log pending].
    rewrite AsyncFacts.step_settle_last
      by (now rewrite AsyncFacts.length_imageRequests).
    rewrite AsyncFacts.semanticImages_settled_run. cbn [state log pending].
    rewrite <- app_assoc. split; [reflexivity|].
    split; [apply AsyncFacts.imageRequests_spec|]. split.
    + rewrite (filter_app _ (_ ++ _)%list), AsyncFacts.fetchImage_logs_no_request.
      apply app_nil_r.
    + apply AsyncFacts.hydrate_hydratedFrom.
Qed.

Lemma image_only_for_image_type_witness :
  Forall2 hydratedFrom sampleHits
    (meiliSearchResults
       (state (step defaultPreferences
                 (step defaultPreferences
                    (run (performMeiliSearch defaultPreferences "rust") busyWorld)
                    (Settle 0 [Fulfilled (Hits sampleHits)]))
                 (Settle 0 sampleSettled)))) /\
  Forall2 hydratedFrom sampleResults
    (semanticResults
       (state (step defaultPreferences
                 (step defaultPreferences
                    (run (performSemanticSearch defaultPreferences "rust") busyWorld)
                    (Settle 0 [Fulfilled (Http 200 (JsonResults sampleResults))]))
                 (Settle 0 [Rejected])))).
Proof.
  pose proof (image_only_for_image_type defaultPreferences "rust" "token"
                busyWorld sampleHits sampleResults 200 sampleSettled [Rejected]
                eq_refl eq_refl eq_refl eq_refl eq_refl) as H.
  cbv zeta in H. destruct H as [(_ & _ & _ & Hl) (_ & _ & _ & Hs)].
  split; [exact Hl | exact Hs].
Defined.

Example hydrate_sampleHits :
  hydrate sampleHits sampleSettled
  = [noteEntry; withImage photoEntry (Some "https://img.example.com/p7.png")].
Proof. reflexivity. Qed.

(** ** Typing after a semantic search *)

(** C5, as the specification has it, fails: a semantic search that is in
    flight when the user types again is not abandoned. Its results, found
    for the old text, are on display after the change of text, here while
    the lexical query of the new text is still in flight. *)
Lemma stale_semantic_results_after_typing :
  let w := runTrace defaultPreferences initialWorld staleTrace in
  searchText (state w) = "rust o" /\
  semanticResults (state w) = [bookEntry] /\
  map fst (pending w) = [[meiliRequest "rust o"]].
Proof. vm_compute. repeat split. Qed.

(** C5, amended. After every change of the search text the semantic results
    are empty, the text is the new one, and the lexical query just issued is
    still in flight with the lexical results untouched; and if no semantic
    search is in flight at the change, none is in flight after it, and
    through every later sequence of events without a semantic trigger
    (further changes of the text, mounting, anything the network delivers)
    the semantic results stay empty and no semantic search comes in
    flight. *)
Theorem text_change_clears_semantic
  (preferences : Preferences) (w : World) (text : string) :
  let w' := step preferences w (SearchTextChange text) in
  semanticResults (state w') = [] /\
  searchText (state w') = text /\
  (forall client,
      searchClient (state w) = Some client -> JS.blank text = false ->
      pending w' = (pending w ++ [([meiliRequest text],
                                   performMeiliSearch_settled preferences)])%list /\
      meiliSearchResults (state w') = meiliSearchResults (state w)) /\
  (noSemanticInFlight w ->
   noSemanticInFlight w' /\
   forall evs, noEnterPress evs = true ->
     semanticResults (state (runTrace preferences w' evs)) = [] /\
     noSemanticInFlight (runTrace preferences w' evs)).
Proof.
  intros w'.
  assert (Hfirst : semanticResults (state w') = []).
  { unfold w', step. now rewrite AsyncFacts.handleSearchTextChange_run. }
  split; [exact Hfirst|].
  set (w0 := {| state := setSearchText text (state w); log := log w;
                pending := pending w |}).
  split; [|split].
  - unfold w', step. rewrite AsyncFacts.handleSearchTextChange_run. fold w0.
    cbn [state setSemanticResults searchText].
    destruct (searchClient (state w)) as [client|] eqn:Hc.
    + destruct (JS.blank text) eqn:Hb.
      * now rewrite AsyncFacts.performMeiliSearch_blank.
      * now rewrite (AsyncFacts.performMeiliSearch_start _ _ w0 client).
    + now rewrite AsyncFacts.performMeiliSearch_no_client.
  - intros client Hc Hb.
    unfold w', step. rewrite AsyncFacts.handleSearchTextChange_run. fold w0.
    rewrite (AsyncFacts.performMeiliSearch_start _ _ w0 client Hc Hb).
    split; reflexivity.
  - intros Hw.
    assert (Hw' : noSemanticInFlight w')
      by apply (AsyncFacts.step_no_trigger_semantic preferences w
                  (SearchTextChange text) eq_refl Hw).
    split; [exact Hw'|]. intros evs Hevs.
    now apply AsyncFacts.runTrace_no_trigger_semantic.
Qed.

Lemma text_change_clears_semantic_witness :
  let w' := step defaultPreferences busyWorld (SearchTextChange "rust o") in
  (pending w' = (pending busyWorld ++
                 [([meiliRequest "rust o"],
                   performMeiliSearch_settled defaultPreferences)])%list /\
   meiliSearchResults (state w') = meiliSearchResults (state busyWorld)) /\
  semanticResults
    (state (runTrace defaultPreferences w'
              [Settle 0 [Fulfilled (Hits sampleHits)];
               SearchTextChange "rust ow";
               Settle 0 sampleSettled;
               Settle 0 [Rejected]]))
  = [].
Proof.
  pose proof (text_change_clears_semantic defaultPreferences busyWorld "rust o")
    as H.
  cbv zeta in H. destruct H as (_ & _ & Hp & Hs). split.
  - apply (Hp "token"); reflexivity.
  - destruct Hs as [_ Hs]; [constructor|].
    apply (Hs [Settle 0 [Fulfilled (Hits sampleHits)];
               SearchTextChange "rust ow";
               Settle 0 sampleSettled;
               Settle 0 [Rejected]]).
    reflexivity.
Defined.

(** A world without suspended calls has no semantic search in flight: so
    has the first world, and so has every world in which all searches have
    settled. *)
Lemma noSemanticInFlight_idle (w : World) :
  pending w = [] -> noSemanticInFlight w.
Proof. intros H. unfold noSemanticInFlight. rewrite H. constructor. Qed.

(** ** Bounds on what the command does *)

Module BoundsFacts.

Section Bounds.

Variables (U : (State -> State) -> Prop) (E : Effect -> Prop)
          (R : Request -> Prop).

Lemma obeys_seq p q : obeys U E R p -> obeys U E R q -> obeys U E R (seq p q).
Proof.
  intros Hp Hq. induction Hp; simpl; try (constructor; auto); exact Hq.
Qed.

Lemma obeys_emitAll es k :
  Forall E es -> obeys U E R k -> obeys U E R (emitAll es k).
Proof.
  intros Hes Hk. induction Hes; simpl; [exact Hk | now constructor].
Qed.

Variables (I : State -> Prop) (L : Effect -> Prop).
Hypothesis update_ok : forall f s, U f -> I s -> I (f s).
Hypothesis effect_ok : forall e, E e -> L e.
Hypothesis request_ok : forall r, R r -> L (Net r).

(** A program within the bounds keeps the world within them. *)
Lemma run_withinBounds p :
  obeys U E R p ->
  forall w, withinBounds I L U E R w -> withinBounds I L U E R (run p w).
Proof.
  induction 1 as [|f k Hf Hk IH|k Hk IH|e k He Hk IH|p k Hp IHp Hk IHk
                 |reqs k Hr Hk IH];
    intros w (HI & HL & HP); simpl.
  - now repeat split.
  - apply IH. repeat split; simpl; auto.
  - apply IH. now repeat split.
  - apply IH. repeat split; simpl; auto.
    apply Forall_app. split; [exact HL|]. constructor; auto.
  - apply IHk, IHp. now repeat split.
  - repeat split; simpl; auto.
    + apply Forall_app. split; [exact HL|].
      rewrite Forall_map. eapply Forall_impl; [|exact Hr]. auto.
    + unfold pendingObey. simpl. apply Forall_app. split; [exact HP|].
      constructor; [exact Hk | constructor].
Qed.

(** So does the arrival of outcomes for a suspended call. *)
Lemma settle_withinBounds preferences w i outcomes :
  withinBounds I L U E R w ->
  withinBounds I L U E R (step preferences w (Settle i outcomes)).
Proof.
  intros (HI & HL & HP). unfold step.
  destruct (nth_error (pending w) i) as [[reqs k]|] eqn:E1;
    [|now repeat split].
  destruct (length outcomes =? length reqs)%nat; [|now repeat split].
  apply run_withinBounds.
  - apply nth_error_In in E1. unfold pendingObey in HP.
    rewrite Forall_forall in HP. apply (HP _ E1).
  - repeat split; auto. unfold pendingObey. simpl.
    now apply AsyncFacts.Forall_removeAt.
Qed.

End Bounds.

Lemma obeys_weaken (U U' : (State -> State) -> Prop) (E E' : Effect -> Prop)
  (R R' : Request -> Prop) p :
  (forall f, U f -> U' f) -> (forall e, E e -> E' e) ->
  (forall r, R r -> R' r) ->
  obeys U E R p -> obeys U' E' R' p.
Proof.
  intros HU HE HR. induction 1; constructor; auto.
  eapply Forall_impl; [|eassumption]. auto.
Qed.

End BoundsFacts.

Module ProgramBounds.
Import BoundsFacts.

Section Programs.

Variable preferences : Preferences.
Variables (U : (State -> State) -> Prop) (E : Effect -> Prop)
          (R : Request -> Prop).

Hypothesis notices : forall e, knownNotice e -> E e.
Hypothesis image_requests : forall id, R (fetchImage_request preferences id).
Hypothesis semantic_requests : forall q, R (semanticRequest preferences q).
Hypothesis semantic_results : forall v, U (setSemanticResults v).
Hypothesis semantic_loading : forall b, U (setIsLoadingSemanticSearch b).

Lemma obeys_loadImages results k :
  (forall l, obeys U E R (k l)) -> obeys U E R (loadImages preferences results k).
Proof.
  intros Hk. unfold loadImages. constructor.
  - rewrite Forall_map. apply Forall_forall. intros r _. apply image_requests.
  - intros outcomes. unfold loadImages_settled. apply obeys_emitAll; [|apply Hk].
    apply Forall_concat. rewrite Forall_map. apply Forall_forall.
    intros [r o] _. unfold fetchImage_log.
    destruct (fetchImage_try _ _); constructor; [|constructor].
    now apply notices.
Qed.

Lemma obeys_performSemanticSearch_settled outcomes :
  obeys U E R (performSemanticSearch_settled preferences outcomes).
Proof.
  unfold performSemanticSearch_settled. apply obeys_seq.
  - destruct (semanticResponse outcomes) as [results|].
    + apply obeys_loadImages. intros l. constructor; [auto | constructor].
    + constructor; [now apply notices|].
      constructor; [apply notices; now split|].
      constructor; [auto | constructor].
  - constructor; [auto | constructor].
Qed.

Lemma obeys_performSemanticSearch query :
  obeys U E R (performSemanticSearch preferences query).
Proof.
  unfold performSemanticSearch. destruct (negb _).
  - constructor; [auto | constructor].
  - constructor; [auto|]. constructor.
    + constructor; [apply semantic_requests | constructor].
    + apply obeys_performSemanticSearch_settled.
Qed.

Lemma obeys_handleEnterPress : obeys U E R (handleEnterPress preferences).
Proof.
  unfold handleEnterPress. constructor. intros st.
  destruct (JS.truthy _); [|constructor].
  constructor; [apply obeys_performSemanticSearch | constructor].
Qed.

Hypothesis index_requests : forall q, R (meiliRequest q).
Hypothesis token_request :
  R (Post (ycbUrl preferences ++ "/token") (apiKey preferences) NoBody).
Hypothesis lexical_results : forall v, U (setMeiliSearchResults v).
Hypothesis lexical_loading : forall b, U (setIsLoadingMeiliSearch b).
Hypothesis client_updates : forall c, U (setSearchClient c).

Lemma obeys_performMeiliSearch_settled outcomes :
  obeys U E R (performMeiliSearch_settled preferences outcomes).
Proof.
  unfold performMeiliSearch_settled. apply obeys_seq.
  - destruct (meiliResponse outcomes) as [hits|].
    + apply obeys_loadImages. intros l. constructor; [auto | constructor].
    + constructor; [now apply notices|]. constructor; [auto | constructor].
  - constructor; [auto | constructor].
Qed.

Lemma obeys_performMeiliSearch query :
  obeys U E R (performMeiliSearch preferences query).
Proof.
  unfold performMeiliSearch. constructor. intros st. destruct (_ || _).
  - constructor; [auto | constructor].
  - constructor; [auto|]. constructor.
    + constructor; [apply index_requests | constructor].
    + apply obeys_performMeiliSearch_settled.
Qed.

Hypothesis text_updates : forall t, U (setSearchText t).

Lemma obeys_handleSearchTextChange text :
  obeys U E R (handleSearchTextChange preferences text).
Proof.
  unfold handleSearchTextChange. constructor. intros st.
  constructor; [auto|]. constructor; [apply obeys_performMeiliSearch|].
  destruct (_ <? _)%nat; [|constructor]. constructor; [auto | constructor].
Qed.

Lemma obeys_initializeMeiliSearch :
  obeys U E R (initializeMeiliSearch preferences).
Proof.
  unfold initializeMeiliSearch. constructor.
  - constructor; [exact token_request | constructor].
  - intros outcomes. destruct (getToken_try outcomes).
    + constructor; [auto | constructor].
    + constructor; [now apply notices|].
      constructor; [apply notices; now split | constructor].
Qed.

(** Whatever the event, a world within the bounds stays within them. *)
Lemma step_withinBounds (I : State -> Prop) (L : Effect -> Prop) w ev :
  (forall f s, U f -> I s -> I (f s)) ->
  (forall e, E e -> L e) -> (forall r, R r -> L (Net r)) ->
  withinBounds I L U E R w ->
  withinBounds I L U E R (step preferences w ev).
Proof.
  intros HU HE HR Hw. destruct ev as [|text| |i outcomes].
  - unfold step. destruct (JS.truthy _); [|exact Hw].
    apply (run_withinBounds U E R I L HU HE HR);
      [apply obeys_initializeMeiliSearch | exact Hw].
  - apply (run_withinBounds U E R I L HU HE HR);
      [apply obeys_handleSearchTextChange | exact Hw].
  - apply (run_withinBounds U E R I L HU HE HR);
      [apply obeys_handleEnterPress | exact Hw].
  - now apply (settle_withinBounds U E R I L HU HE HR).
Qed.

End Programs.

End ProgramBounds.

(** ** What reaches the network and the user *)

(** X1. Through every sequence of the events of the search (the mounting
    of the command, changes of the search text, triggers of the semantic
    search and settlings of suspended calls, whatever their outcomes),
    every entry of the log of the search is a request of one of four kinds
    (the query of the index [ycb_fts_staging] with 20 hits a page, and the
    POSTs to [/token], [/search] with a match limit of 5 and
    [/fetchImagesByIDs] with one id, all three to the configured backend
    with the configured key), a failure toast headed [Search Error], or a
    diagnostic. The action [Copy Image] is not an event of the search; its
    request and its toasts are those of [handleCopyImage] and are not in
    this log. *)
Theorem log_only_known_effects (preferences : Preferences) (evs : list Event) :
  Forall (knownEffect preferences)
         (log (runTrace preferences initialWorld evs)).
Proof.
  assert (H : forall w,
             withinBounds (fun _ => True) (knownEffect preferences)
                          (fun _ => True) knownNotice
                          (knownRequest preferences) w ->
             withinBounds (fun _ => True) (knownEffect preferences)
                          (fun _ => True) knownNotice
                          (knownRequest preferences)
                          (runTrace preferences w evs)).
  { induction evs as [|ev evs IH]; intros w Hw; [exact Hw|].
    apply IH.
    apply (ProgramBounds.step_withinBounds preferences (fun _ => True)
             knownNotice (knownRequest preferences)); auto.
    - intros id. right. right. right. now exists id.
    - intros q. right. right. left. now exists q.
    - intros q. left. now exists q.
    - right. now left.
    - intros [r| |] He; simpl in *; [contradiction | exact I | exact He]. }
  apply (H initialWorld). repeat split; constructor.
Qed.

(** ** Without an API key *)

Lemma keepsLexical_unused f s :
  keepsLexical f -> lexicalUnused s -> lexicalUnused (f s).
Proof.
  intros Hf (Hc & Hm & Hl). destruct (Hf s) as (Ec & Em & El).
  unfold lexicalUnused. now rewrite Ec, Em, El.
Qed.

Lemma notice_noIndexQuery e : knownNotice e -> noIndexQuery e.
Proof. destruct e; simpl; [contradiction | auto | auto]. Qed.

(** An idle lexical search stays idle under every event but the mounting
    of the command with a key. *)
Lemma lexicalIdle_step preferences w ev :
  apiKey preferences = "" \/ ev <> Mount ->
  lexicalIdle w -> lexicalIdle (step preferences w ev).
Proof.
  intros Hkey Hw. destruct ev as [|text| |i outcomes].
  - destruct Hkey as [Hkey|Hne]; [|congruence].
    unfold step. now rewrite Hkey.
  - destruct Hw as ((Hc & Hm & Hl) & HL & HP). unfold step.
    rewrite AsyncFacts.handleSearchTextChange_run.
    rewrite AsyncFacts.performMeiliSearch_no_client by exact Hc.
    repeat split; simpl; auto.
  - apply (BoundsFacts.run_withinBounds keepsLexical knownNotice
             backendRequest lexicalUnused noIndexQuery);
      auto using keepsLexical_unused, notice_noIndexQuery.
    apply ProgramBounds.obeys_handleEnterPress; auto; simpl; auto;
      intros v s; now destruct s.
  - apply (BoundsFacts.settle_withinBounds keepsLexical knownNotice
             backendRequest lexicalUnused noIndexQuery);
      auto using keepsLexical_unused, notice_noIndexQuery.
Qed.

(** X2. With no API key configured the lexical search never runs: whatever
    the events, there is no search client, the lexical results are empty,
    the lexical loading flag is down and no query of the index is in the
    log. The semantic search is not held back by the missing key. *)
Theorem no_key_no_lexical_search (preferences : Preferences) (evs : list Event) :
  apiKey preferences = "" ->
  searchClient (state (runTrace preferences initialWorld evs)) = None /\
  meiliSearchResults (state (runTrace preferences initialWorld evs)) = [] /\
  isLoadingMeiliSearch (state (runTrace preferences initialWorld evs)) = false /\
  forall indexName query hitsPerPage,
    ~ In (Net (IndexSearch indexName query hitsPerPage))
         (log (runTrace preferences initialWorld evs)).
Proof.
  intros Hkey.
  assert (H : forall w, lexicalIdle w ->
                        lexicalIdle (runTrace preferences w evs)).
  { induction evs as [|ev evs IH]; intros w Hw; [exact Hw|].
    apply IH. apply lexicalIdle_step; auto. }
  destruct (H initialWorld) as ((Hc & Hm & Hl) & HL & _).
  { repeat split; constructor. }
  repeat split; auto.
  intros indexName query hitsPerPage Hin.
  rewrite Forall_forall in HL. apply (HL _ Hin).
Qed.

Lemma no_key_no_lexical_search_witness :
  searchClient (state (runTrace keylessPreferences initialWorld keylessTrace))
  = None /\
  meiliSearchResults
    (state (runTrace keylessPreferences initialWorld keylessTrace)) = [] /\
  isLoadingMeiliSearch
    (state (runTrace keylessPreferences initialWorld keylessTrace)) = false /\
  forall indexName query hitsPerPage,
    ~ In (Net (IndexSearch indexName query hitsPerPage))
         (log (runTrace keylessPreferences initialWorld keylessTrace)).
Proof.
  apply (no_key_no_lexical_search keylessPreferences keylessTrace).
  reflexivity.
Defined.

(** ** Mounting the command *)

(** X3. Mounted with a key, the command sends one token request. A reply
    that carries a token, whatever its status, puts the search client in
    place and shows nothing. A rejected request, a body that is no JSON or
    a body with a non-empty [error] leaves the state as it was, without
    client, and shows the failure toast that asks to check the API key. *)
Theorem mount_token (preferences : Preferences) (w : World) (outcome : Outcome) :
  JS.truthy (apiKey preferences) = true ->
  let w1 := step preferences w Mount in
  let w2 := step preferences w1 (Settle (length (pending w)) [outcome]) in
  state w1 = state w /\
  log w1 = (log w ++ [Net (Post (ycbUrl preferences ++ "/token")
                                (apiKey preferences) NoBody)])%list /\
  (forall status token,
      outcome = Fulfilled (Http status (JsonToken token)) ->
      state w2 = setSearchClient (Some token) (state w) /\
      log w2 = log w1 /\ pending w2 = pending w) /\
  (outcome = Rejected \/
   (exists status, outcome = Fulfilled (Http status NotJson)) \/
   (exists status error,
       outcome = Fulfilled (Http status (JsonError error)) /\ error <> "") ->
   state w2 = state w /\
   log w2 = (log w1 ++
             [ConsoleError "Failed to initialize MeiliSearch:";
              ShowToast Failure "Search Error"
                "Failed to initialize search. Check your API key."])%list /\
   pending w2 = pending w).
Proof.
  intros Hkey w1 w2. subst w2 w1.
  assert (E1 : step preferences w Mount
               = run (initializeMeiliSearch preferences) w)
    by (unfold step; now rewrite Hkey).
  rewrite E1. unfold initializeMeiliSearch. cbn [run state log pending map].
  split; [reflexivity|]. split; [reflexivity|]. split.
  - intros status token ->.
    rewrite AsyncFacts.step_settle_last by reflexivity. now destruct w.
  - intros Hfail. rewrite AsyncFacts.step_settle_last by reflexivity.
    assert (Hnone : getToken_try [outcome] = None).
    { destruct Hfail as [-> | [(status & ->) | (status & error & -> & _)]];
        reflexivity. }
    rewrite Hnone. simpl. rewrite <- app_assoc. now repeat split.
Qed.

Lemma mount_token_witness :
  let w1 := step defaultPreferences initialWorld Mount in
  let w2 := step defaultPreferences w1
              (Settle 0 [Fulfilled (Http 401 (JsonError "Invalid API key"))]) in
  state w2 = state initialWorld /\
  log w2 = (log w1 ++
            [ConsoleError "Failed to initialize MeiliSearch:";
             ShowToast Failure "Search Error"
               "Failed to initialize search. Check your API key."])%list /\
  pending w2 = pending initialWorld.
Proof.
  pose proof (mount_token defaultPreferences initialWorld
                (Fulfilled (Http 401 (JsonError "Invalid API key"))) eq_refl)
    as H.
  cbv zeta in H. destruct H as (_ & _ & _ & H). apply H.
  right. right. exists 401%Z, "Invalid API key". split; [reflexivity | discriminate].
Defined.

(** ** Asking for a semantic search *)

(** X4. The semantic trigger on a search text that is empty or all white
    space leaves the world as it is. On any other text it raises the
    semantic loading flag and sends one request with that text as typed,
    not trimmed; results of both kinds stay on display until the request
    settles. *)
Theorem enter_press (preferences : Preferences) (w : World) :
  (JS.blank (searchText (state w)) = true ->
   step preferences w EnterPress = w) /\
  (JS.blank (searchText (state w)) = false ->
   step preferences w EnterPress
   = {| state := setIsLoadingSemanticSearch true (state w);
        log := (log w ++ [Net (semanticRequest preferences
                                 (searchText (state w)))])%list;
        pending := (pending w ++
                    [([semanticRequest preferences (searchText (state w))],
                      performSemanticSearch_settled preferences)])%list |}).
Proof.
  unfold step, handleEnterPress. cbn [run]. rewrite JSFacts.truthy_trim.
  split; intros H; rewrite H; cbn [negb run].
  - reflexivity.
  - now apply AsyncFacts.performSemanticSearch_start.
Qed.

Lemma enter_press_witness :
  step defaultPreferences initialWorld EnterPress = initialWorld /\
  step defaultPreferences busyWorld EnterPress
  = {| state := setIsLoadingSemanticSearch true (state busyWorld);
       log := (log busyWorld ++
               [Net (semanticRequest defaultPreferences "rust")])%list;
       pending := (pending busyWorld ++
                   [([semanticRequest defaultPreferences "rust"],
                     performSemanticSearch_settled defaultPreferences)])%list |}.
Proof.
  split.
  - apply (proj1 (enter_press defaultPreferences initialWorld)). reflexivity.
  - apply (proj2 (enter_press defaultPreferences busyWorld)). reflexivity.
Defined.

(** ** Hydration *)

Lemma isImage_withImage r v : isImage (withImage r v) = isImage r.
Proof. reflexivity. Qed.

(** X5. Hydration returns the entries it was given, in their order, with
    their ids, texts and metadata, whatever the image requests gave and
    however many outcomes there are; and the image of the k-th image-type
    entry is what the k-th image request returned for the id of that
    entry. *)
Theorem hydrate_keeps_order (results : list SearchResult)
  (outcomes : list Outcome) :
  map id (hydrate results outcomes) = map id results /\
  map data (hydrate results outcomes) = map data results /\
  map metadata (hydrate results outcomes) = map metadata results /\
  (length outcomes = length (filter isImage results) ->
   map image (filter isImage (hydrate results outcomes))
   = map (fun ro => fetchImage_value (id (fst ro)) (snd ro))
         (combine (filter isImage results) outcomes)).
Proof.
  revert outcomes. induction results as [|r rest IH]; intros outcomes.
  - now repeat split.
  - simpl. destruct (isImage r) eqn:Hr.
    + destruct outcomes as [|o os].
      * destruct (IH []) as (Hi & Hd & Hm & _). simpl.
        rewrite Hi, Hd, Hm. repeat split. discriminate.
      * destruct (IH os) as (Hi & Hd & Hm & Him). simpl.
        rewrite Hi, Hd, Hm, isImage_withImage, Hr. repeat split.
        intros [= L]. simpl. now rewrite (Him L).
    + destruct (IH outcomes) as (Hi & Hd & Hm & Him). simpl.
      rewrite Hi, Hd, Hm, Hr. now repeat split.
Qed.

Lemma hydrate_keeps_order_witness :
  map image (filter isImage (hydrate sampleHits sampleSettled))
  = map (fun ro => fetchImage_value (id (fst ro)) (snd ro))
        (combine (filter isImage sampleHits) sampleSettled).
Proof.
  apply (proj2 (proj2 (proj2 (hydrate_keeps_order sampleHits sampleSettled)))).
  reflexivity.
Defined.

(** ** Searches that succeed *)

(** X6. A lexical search on a non-blank query with the search client in
    place, answered with hits: the loading flag is up while the query and
    then the image requests are in flight; when those have settled the
    hydrated hits are the lexical results, the flag is down, no call is
    left suspended, no toast was shown whatever the image requests gave,
    and the semantic results and the search text are as before. *)
Theorem lexical_success
  (preferences : Preferences) (query client : string) (w : World)
  (hits : list SearchResult) (outcomes : list Outcome) :
  searchClient (state w) = Some client ->
  JS.blank query = false ->
  length outcomes = length (filter isImage hits) ->
  let n := length (pending w) in
  let w1 := run (performMeiliSearch preferences query) w in
  let w2 := step preferences w1 (Settle n [Fulfilled (Hits hits)]) in
  let w3 := step preferences w2 (Settle n outcomes) in
  isLoadingMeiliSearch (state w1) = true /\
  isLoadingMeiliSearch (state w2) = true /\
  meiliSearchResults (state w2) = meiliSearchResults (state w) /\
  meiliSearchResults (state w3) = hydrate hits outcomes /\
  isLoadingMeiliSearch (state w3) = false /\
  pending w3 = pending w /\
  filter isToast (log w3) = filter isToast (log w) /\
  semanticResults (state w3) = semanticResults (state w) /\
  searchText (state w3) = searchText (state w).
Proof.
  intros Hc Hb L n w1 w2 w3. subst w3 w2 w1 n.
  rewrite (AsyncFacts.performMeiliSearch_start preferences query w client Hc Hb).
  rewrite AsyncFacts.step_settle_last by reflexivity.
  rewrite AsyncFacts.performMeiliSearch_settled_hits. cbn [state log pending].
  rewrite AsyncFacts.step_settle_last
    by (now rewrite AsyncFacts.length_imageRequests).
  rewrite AsyncFacts.meiliImages_settled_run. cbn [state log pending].
  repeat split.
  rewrite !filter_app, AsyncFacts.fetchImage_logs_no_toast, app_nil_r.
  simpl. rewrite app_nil_r.
  assert (E : filter isToast (map Net (imageRequests preferences hits)) = []).
  { induction (imageRequests preferences hits); simpl; auto. }
  rewrite E. apply app_nil_r.
Qed.

Lemma lexical_success_witness :
  let w3 := step defaultPreferences
              (step defaultPreferences
                 (run (performMeiliSearch defaultPreferences "rust") busyWorld)
                 (Settle 0 [Fulfilled (Hits sampleHits)]))
              (Settle 0 sampleSettled) in
  meiliSearchResults (state w3) = hydrate sampleHits sampleSettled /\
  isLoadingMeiliSearch (state w3) = false /\
  filter isToast (log w3) = filter isToast (log busyWorld).
Proof.
  pose proof (lexical_success defaultPreferences "rust" "token" busyWorld
                sampleHits sampleSettled eq_refl eq_refl eq_refl) as H.
  cbv zeta in H. destruct H as (_ & _ & _ & H1 & H2 & _ & H3 & _).
  repeat split; assumption.
Defined.

(** X7. A semantic search on a non-blank query, answered with a status in
    200..299 and an array of results: the loading flag is up until the
    image requests have settled; then the hydrated results are the
    semantic results, the flag is down, no call is left suspended, no
    toast was shown, and the lexical results and the search text are as
    before. *)
Theorem semantic_success
  (preferences : Preferences) (query : string) (w : World) (status : Z)
  (results : list SearchResult) (outcomes : list Outcome) :
  JS.blank query = false ->
  ok status = true ->
  length outcomes = length (filter isImage results) ->
  let n := length (pending w) in
  let w1 := run (performSemanticSearch preferences query) w in
  let w2 := step preferences w1
              (Settle n [Fulfilled (Http status (JsonResults results))]) in
  let w3 := step preferences w2 (Settle n outcomes) in
  isLoadingSemanticSearch (state w1) = true /\
  isLoadingSemanticSearch (state w2) = true /\
  semanticResults (state w2) = semanticResults (state w) /\
  semanticResults (state w3) = hydrate results outcomes /\
  isLoadingSemanticSearch (state w3) = false /\
  pending w3 = pending w /\
  filter isToast (log w3) = filter isToast (log w) /\
  meiliSearchResults (state w3) = meiliSearchResults (state w) /\
  searchText (state w3) = searchText (state w).
Proof.
  intros Hb Hok L n w1 w2 w3. subst w3 w2 w1 n.
  rewrite (AsyncFacts.performSemanticSearch_start preferences query w Hb).
  rewrite AsyncFacts.step_settle_last by reflexivity.
  rewrite AsyncFacts.performSemanticSearch_settled_results by exact Hok.
  cbn [state log pending].
  rewrite AsyncFacts.step_settle_last
    by (now rewrite AsyncFacts.length_imageRequests).
  rewrite AsyncFacts.semanticImages_settled_run. cbn [state log pending].
  repeat split.
  rewrite !filter_app, AsyncFacts.fetchImage_logs_no_toast, app_nil_r.
  simpl. rewrite app_nil_r.
  assert (E : filter isToast (map Net (imageRequests preferences results)) = []).
  { induction (imageRequests preferences results); simpl; auto. }
  rewrite E. apply app_nil_r.
Qed.

Lemma semantic_success_witness :
  let w3 := step defaultPreferences
              (step defaultPreferences
                 (run (performSemanticSearch defaultPreferences "rust") busyWorld)
                 (Settle 0 [Fulfilled (Http 200 (JsonResults sampleResults))]))
              (Settle 0 [Rejected]) in
  semanticResults (state w3) = hydrate sampleResults [Rejected] /\
  isLoadingSemanticSearch (state w3) = false /\
  meiliSearchResults (state w3) = meiliSearchResults (state busyWorld).
Proof.
  pose proof (semantic_success defaultPreferences "rust" busyWorld 200
                sampleResults [Rejected] eq_refl eq_refl eq_refl) as H.
  cbv zeta in H. destruct H as (_ & _ & _ & H1 & H2 & _ & _ & H3 & _).
  repeat split; assumption.
Defined.

(** X8. A semantic search answered with a status in 200..299 but a body
    that is no array of results (no JSON at all, an object, an error
    message) ends like a failed one: diagnostic, failure toast, empty
    semantic results, loading flag down, lexical results untouched. *)
Theorem semantic_malformed_body
  (preferences : Preferences) (query : string) (w : World) (status : Z)
  (body : Json) :
  JS.blank query = false ->
  (forall results, body <> JsonResults results) ->
  let w' := step preferences
              (run (performSemanticSearch preferences query) w)
              (Settle (length (pending w)) [Fulfilled (Http status body)]) in
  log w' = (log w ++ [Net (semanticRequest preferences query);
                      ConsoleError "Semantic search error:";
                      ShowToast Failure "Search Error"
                                "Failed to perform semantic search"])%list /\
  semanticResults (state w') = [] /\
  isLoadingSemanticSearch (state w') = false /\
  meiliSearchResults (state w') = meiliSearchResults (state w) /\
  pending w' = pending w.
Proof.
  intros Hb Hbody w'. subst w'.
  rewrite (AsyncFacts.performSemanticSearch_start preferences query w Hb).
  rewrite AsyncFacts.step_settle_last by reflexivity.
  rewrite AsyncFacts.performSemanticSearch_settled_failure.
  - simpl. rewrite <- app_assoc. repeat split.
  - simpl. destruct (ok status); [|reflexivity].
    destruct body; try reflexivity. now destruct (Hbody results).
Qed.

Lemma semantic_malformed_body_witness :
  let w' := step defaultPreferences
              (run (performSemanticSearch defaultPreferences "rust") busyWorld)
              (Settle (length (pending busyWorld))
                      [Fulfilled (Http 200 (JsonError "quota exceeded"))]) in
  log w' = (log busyWorld ++
            [Net (semanticRequest defaultPreferences "rust");
             ConsoleError "Semantic search error:";
             ShowToast Failure "Search Error"
                       "Failed to perform semantic search"])%list /\
  semanticResults (state w') = [] /\
  isLoadingSemanticSearch (state w') = false /\
  meiliSearchResults (state w') = meiliSearchResults (state busyWorld) /\
  pending w' = pending busyWorld.
Proof.
  apply (semantic_malformed_body defaultPreferences "rust" busyWorld 200
           (JsonError "quota exceeded")).
  - reflexivity.
  - discriminate.
Defined.

(** ** Typing while a query is in flight *)

(** A change of the search text to a non-blank text, with the search client
    in place. *)
Lemma text_change_start preferences w client text :
  searchClient (state w) = Some client -> JS.blank text = false ->
  step preferences w (SearchTextChange text)
  = {| state := setSemanticResults []
                  (setIsLoadingMeiliSearch true (setSearchText text (state w)));
       log := (log w ++ [Net (meiliRequest text)])%list;
       pending := (pending w ++ [([meiliRequest text],
                                  performMeiliSearch_settled preferences)])%list |}.
Proof.
  intros Hc Hb. unfold step. rewrite AsyncFacts.handleSearchTextChange_run.
  now rewrite (AsyncFacts.performMeiliSearch_start preferences text _ client).
Qed.

(** The answer to a lexical query that is the last suspended call, and then
    the outcomes of its image requests. *)
Lemma lexical_answer_last preferences st lg tasks req hits outcomes :
  length outcomes = length (filter isImage hits) ->
  runTrace preferences
    {| state := st; log := lg;
       pending := (tasks ++ [([req],
                              performMeiliSearch_settled preferences)])%list |}
    [Settle (length tasks) [Fulfilled (Hits hits)];
     Settle (length tasks) outcomes]
  = {| state := setIsLoadingMeiliSearch false
                  (setMeiliSearchResults (hydrate hits outcomes) st);
       log := ((lg ++ map Net (imageRequests preferences hits)) ++
               concat (map (fun ro => fetchImage_log (id (fst ro)) (snd ro))
                           (combine (filter isImage hits) outcomes)))%list;
       pending := tasks |}.
Proof.
  intros L. cbn [runTrace fold_left].
  rewrite AsyncFacts.step_settle_last by reflexivity.
  rewrite AsyncFacts.performMeiliSearch_settled_hits. cbn [state log pending].
  rewrite AsyncFacts.step_settle_last
    by (now rewrite AsyncFacts.length_imageRequests).
  now rewrite AsyncFacts.meiliImages_settled_run.
Qed.

(** X9. Lexical answers are applied in the order they arrive, not in the
    order the queries were issued. After two changes of the search text, if
    the answer to the second query comes first it is displayed and the
    loading flag goes down although the first query is still in flight; when
    the answer to the first query comes later, it replaces the results of
    the text on display. *)
Theorem lexical_answers_in_arrival_order
  (preferences : Preferences) (w : World) (client q1 q2 : string)
  (hits1 hits2 : list SearchResult) (outcomes1 outcomes2 : list Outcome) :
  searchClient (state w) = Some client ->
  JS.blank q1 = false -> JS.blank q2 = false ->
  length outcomes1 = length (filter isImage hits1) ->
  length outcomes2 = length (filter isImage hits2) ->
  let n := length (pending w) in
  let typed := runTrace preferences w
                 [SearchTextChange q1; SearchTextChange q2] in
  let second := runTrace preferences typed
                  [Settle (S n) [Fulfilled (Hits hits2)];
                   Settle (S n) outcomes2] in
  let first := runTrace preferences second
                 [Settle n [Fulfilled (Hits hits1)]; Settle n outcomes1] in
  (searchText (state second) = q2 /\
   meiliSearchResults (state second) = hydrate hits2 outcomes2 /\
   isLoadingMeiliSearch (state second) = false /\
   pending second = (pending w ++ [([meiliRequest q1],
                                    performMeiliSearch_settled preferences)])%list)
  /\
  (searchText (state first) = q2 /\
   meiliSearchResults (state first) = hydrate hits1 outcomes1 /\
   pending first = pending w).
Proof.
  intros Hc Hb1 Hb2 L1 L2 n typed second first.
  assert (Et : typed
               = {| state := setSemanticResults []
                    (setIsLoadingMeiliSearch true
                      (setSearchText q2
                        (setSemanticResults []
                          (setIsLoadingMeiliSearch true
                            (setSearchText q1 (state w))))));
                    log := ((log w ++ [Net (meiliRequest q1)]) ++
                            [Net (meiliRequest q2)])%list;
                    pending := ((pending w ++
                                 [([meiliRequest q1],
                                   performMeiliSearch_settled preferences)]) ++
                                [([meiliRequest q2],
                                  performMeiliSearch_settled preferences)])%list |}).
  { unfold typed. cbn [runTrace fold_left].
    rewrite (text_change_start preferences w client q1 Hc Hb1).
    rewrite (text_change_start preferences _ client q2);
      [reflexivity | exact Hc | exact Hb2]. }
  assert (En : S n = length (pending w ++
                             [([meiliRequest q1],
                               performMeiliSearch_settled preferences)])%list)
    by (rewrite last_length; reflexivity).
  assert (Es : pending second
               = (pending w ++ [([meiliRequest q1],
                                 performMeiliSearch_settled preferences)])%list
               /\ state second
                  = setIsLoadingMeiliSearch false
                      (setMeiliSearchResults (hydrate hits2 outcomes2)
                         (state typed))).
  { unfold second. rewrite Et, En.
    rewrite lexical_answer_last by exact L2. now split. }
  destruct Es as [Ep Est]. split.
  - rewrite Est, Et. now repeat split.
  - unfold first. destruct second as [st2 lg2 pd2]. simpl in Ep, Est.
    subst pd2. unfold n. rewrite lexical_answer_last by exact L1.
    rewrite Est, Et. now repeat split.
Qed.

Lemma lexical_answers_in_arrival_order_witness :
  let typed := runTrace defaultPreferences busyWorld
                 [SearchTextChange "rust"; SearchTextChange "rust b"] in
  let second := runTrace defaultPreferences typed
                  [Settle 1 [Fulfilled (Hits [bookEntry])]; Settle 1 []] in
  let first := runTrace defaultPreferences second
                 [Settle 0 [Fulfilled (Hits sampleHits)];
                  Settle 0 sampleSettled] in
  searchText (state first) = "rust b" /\
  meiliSearchResults (state first) = hydrate sampleHits sampleSettled.
Proof.
  pose proof (lexical_answers_in_arrival_order defaultPreferences busyWorld
                "token" "rust" "rust b" sampleHits [bookEntry]
                sampleSettled [] eq_refl eq_refl eq_refl eq_refl eq_refl) as H.
  cbv zeta in H. destruct H as (_ & H1 & H2 & _). now split.
Defined.

(** ** The rendered sections *)

(** X10. The section [No Results] is never rendered together with another
    section; when neither search is loading at least one section is
    rendered; and nothing at all is rendered only while a search is loading
    on a non-empty search text. *)
Theorem sections_shape (st : State) :
  (In NoResultsSection (sections st) -> sections st = [NoResultsSection]) /\
  (isLoading st = false -> sections st <> []) /\
  (sections st = [] -> isLoading st = true /\ searchText st <> "").
Proof.
  destruct st as [txt sem ls cl mei lm]. unfold sections, isLoading.
  cbn [searchText semanticResults isLoadingSemanticSearch meiliSearchResults
       isLoadingMeiliSearch].
  destruct txt as [|c txt], sem as [|s sem], mei as [|m mei], ls, lm;
    cbn; intuition (try discriminate; try congruence).
Qed.

Lemma sections_shape_witness :
  sections (state waitingWorld) <> [].
Proof.
  apply (proj1 (proj2 (sections_shape (state waitingWorld)))). reflexivity.
Defined.

(** X11. A change of the search text to a blank text, or to any text while
    there is no search client, sends nothing and suspends nothing: the
    results of both kinds are empty at once. Emptying the search text brings
    the onboarding section alone; any other such text, when nothing was
    loading, brings [No Results] alone. *)
Theorem text_change_without_query
  (preferences : Preferences) (w : World) (text : string) :
  searchClient (state w) = None \/ JS.blank text = true ->
  let w' := step preferences w (SearchTextChange text) in
  log w' = log w /\ pending w' = pending w /\
  searchText (state w') = text /\
  meiliSearchResults (state w') = [] /\
  semanticResults (state w') = [] /\
  (text = "" -> sections (state w') = [GettingStartedSection]) /\
  (text <> "" -> isLoading (state w) = false ->
   sections (state w') = [NoResultsSection]).
Proof.
  intros Hno w'.
  assert (E : w' = {| state := setSemanticResults []
                                 (setMeiliSearchResults []
                                    (setSearchText text (state w)));
                      log := log w; pending := pending w |}).
  { unfold w', step. rewrite AsyncFacts.handleSearchTextChange_run.
    destruct Hno as [Hc|Hb].
    - now rewrite AsyncFacts.performMeiliSearch_no_client.
    - now rewrite AsyncFacts.performMeiliSearch_blank. }
  rewrite E. cbn [state log pending]. repeat split.
  - intros ->. reflexivity.
  - intros Hne Hl. unfold isLoading in Hl.
    apply orb_false_iff in Hl as [Hm Hs].
    unfold sections. cbn. rewrite Hm, Hs.
    destruct text; [congruence | reflexivity].
Qed.

Lemma text_change_without_query_witness :
  sections (state (step defaultPreferences waitingWorld
                     (SearchTextChange "rus")))
  = [NoResultsSection] /\
  sections (state (step defaultPreferences busyWorld (SearchTextChange "")))
  = [GettingStartedSection].
Proof.
  split.
  - pose proof (text_change_without_query defaultPreferences waitingWorld
                  "rus" (or_introl eq_refl)) as H.
    cbv zeta in H. destruct H as (_ & _ & _ & _ & _ & _ & H).
    apply H; [discriminate | reflexivity].
  - pose proof (text_change_without_query defaultPreferences busyWorld
                  "" (or_intror eq_refl)) as H.
    cbv zeta in H. destruct H as (_ & _ & _ & _ & _ & H & _).
    now apply H.
Defined.

(** ** The outcome of an image request and the copy action *)



(** ** Copying an image *)

Lemma extensionFor_cases contentType :
  In ("image" ++ extensionFor contentType)
     ["image.jpg"; "image.png"; "image.gif"; "image.webp"].
Proof.
  unfold extensionFor.
  destruct (JS.includes contentType "png"); [simpl; auto|].
  destruct (JS.includes contentType "gif"); [simpl; auto|].
  destruct (JS.includes contentType "webp"); simpl; auto.
Qed.

(** X13. [handleCopyImage] opens with the toast [Copying image...] and the
    request of the image, and goes on according to the first step that
    fails. If the download fails, or the temporary directory cannot be
    made, or the file cannot be written, or the clipboard refuses the file,
    no further step of the copy is made: the diagnostic, the failure toast
    and the copy of the image URL as text follow at once, and no success
    toast is shown. If no step fails, the file is written, copied to the
    clipboard and the success toast is shown, and neither the failure toast
    nor the URL as text follows. The file is named [image] with the
    extension chosen from the content type: [.png] if it holds [png], else
    [.gif] if it holds [gif], else [.webp] if it holds [webp], else [.jpg],
    which is also the extension when the header is missing. *)
Theorem handleCopyImage_outcome (env : CopyEnv) (imageUrl : string) :
  let start := [Toast Animated "Copying image..." None; Get imageUrl] in
  let fallback := [Diagnostic "Failed to copy image:";
                   Toast Failure "Failed to copy image"
                         (Some "Copying image URL instead");
                   CopyText imageUrl] in
  (download env = DownloadFailed ->
   handleCopyImage env imageUrl = (start ++ fallback)%list) /\
  (forall header,
      download env = Downloaded header ->
      (tempDir env = None ->
       handleCopyImage env imageUrl
       = (start ++ MakeTempDir "ycb-" :: fallback)%list) /\
      (forall dir,
          tempDir env = Some dir ->
          let name := "image" ++ extensionFor (JS.or_else header "") in
          In name ["image.jpg"; "image.png"; "image.gif"; "image.webp"] /\
          (writeOk env = false ->
           handleCopyImage env imageUrl
           = (start ++ MakeTempDir "ycb-" :: WriteFile dir name
                    :: fallback)%list) /\
          (writeOk env = true -> clipboardOk env = false ->
           handleCopyImage env imageUrl
           = (start ++ MakeTempDir "ycb-" :: WriteFile dir name
                    :: CopyFile dir name :: fallback)%list) /\
          (writeOk env = true -> clipboardOk env = true ->
           handleCopyImage env imageUrl
           = (start ++ [MakeTempDir "ycb-"; WriteFile dir name;
                        CopyFile dir name;
                        Toast Success "Image copied to clipboard" None])%list)))
  /\
  (forall contentType,
      (JS.includes contentType "png" = true ->
       extensionFor contentType = ".png") /\
      (JS.includes contentType "png" = false ->
       JS.includes contentType "gif" = true ->
       extensionFor contentType = ".gif") /\
      (JS.includes contentType "png" = false ->
       JS.includes contentType "gif" = false ->
       JS.includes contentType "webp" = true ->
       extensionFor contentType = ".webp") /\
      (JS.includes contentType "png" = false ->
       JS.includes contentType "gif" = false ->
       JS.includes contentType "webp" = false ->
       extensionFor contentType = ".jpg")) /\
  extensionFor (JS.or_else None "") = ".jpg".
Proof.
  intros start fallback.
  assert (Hext : forall contentType,
      (JS.includes contentType "png" = true ->
       extensionFor contentType = ".png") /\
      (JS.includes contentType "png" = false ->
       JS.includes contentType "gif" = true ->
       extensionFor contentType = ".gif") /\
      (JS.includes contentType "png" = false ->
       JS.includes contentType "gif" = false ->
       JS.includes contentType "webp" = true ->
       extensionFor contentType = ".webp") /\
      (JS.includes contentType "png" = false ->
       JS.includes contentType "gif" = false ->
       JS.includes contentType "webp" = false ->
       extensionFor contentType = ".jpg")).
  { intros contentType. unfold extensionFor. repeat split.
    - now intros ->.
    - now intros -> ->.
    - now intros -> -> ->.
    - now intros -> -> ->. }
  unfold handleCopyImage, handleCopyImage_try.
  destruct env as [dl td wr cl]; cbn [download tempDir writeOk clipboardOk].
  split; [|split; [|split; [exact Hext | reflexivity]]].
  - intros ->. reflexivity.
  - intros header ->. split.
    + intros ->. reflexivity.
    + intros dir ->. split; [apply extensionFor_cases|].
      split; [|split].
      * intros ->. reflexivity.
      * intros -> ->. reflexivity.
      * intros -> ->. reflexivity.
Qed.

Lemma handleCopyImage_outcome_witness :
  handleCopyImage copyClipboardRefuses "https://img.example.com/p7"
  = [Toast Animated "Copying image..." None;
     Get "https://img.example.com/p7";
     MakeTempDir "ycb-";
     WriteFile "/tmp/ycb-a1" "image.jpg";
     CopyFile "/tmp/ycb-a1" "image.jpg";
     Diagnostic "Failed to copy image:";
     Toast Failure "Failed to copy image" (Some "Copying image URL instead");
     CopyText "https://img.example.com/p7"] /\
  handleCopyImage copyAllGood "https://img.example.com/p7"
  = [Toast Animated "Copying image..." None;
     Get "https://img.example.com/p7";
     MakeTempDir "ycb-";
     WriteFile "/tmp/ycb-a1" "image.png";
     CopyFile "/tmp/ycb-a1" "image.png";
     Toast Success "Image copied to clipboard" None].
Proof.
  split.
  - destruct (handleCopyImage_outcome copyClipboardRefuses
                "https://img.example.com/p7") as (_ & H & _).
    destruct (H None eq_refl) as [_ H'].
    destruct (H' "/tmp/ycb-a1" eq_refl) as (_ & _ & H2 & _).
    apply H2; reflexivity.
  - destruct (handleCopyImage_outcome copyAllGood
                "https://img.example.com/p7") as (_ & H & _).
    destruct (H (Some "image/png") eq_refl) as [_ H'].
    destruct (H' "/tmp/ycb-a1" eq_refl) as (_ & _ & _ & H3).
    apply H3; reflexivity.
Defined.

Example handleCopyImage_png :
  handleCopyImage copyAllGood "https://img.example.com/p7"
  = [Toast Animated "Copying image..." None;
     Get "https://img.example.com/p7";
     MakeTempDir "ycb-";
     WriteFile "/tmp/ycb-a1" "image.png";
     CopyFile "/tmp/ycb-a1" "image.png";
     Toast Success "Image copied to clipboard" None].
Proof. reflexivity. Qed.

Example handleCopyImage_clipboard_refuses :
  handleCopyImage copyClipboardRefuses "https://img.example.com/p7"
  = [Toast Animated "Copying image..." None;
     Get "https://img.example.com/p7";
     MakeTempDir "ycb-";
     WriteFile "/tmp/ycb-a1" "image.jpg";
     CopyFile "/tmp/ycb-a1" "image.jpg";
     Diagnostic "Failed to copy image:";
     Toast Failure "Failed to copy image" (Some "Copying image URL instead");
     CopyText "https://img.example.com/p7"].
Proof. reflexivity. Qed.

(** ** The dashboard URL *)

(** X14. With a base URL that holds no [/backend], the action [Open
    Dashboard] opens the base URL unchanged, while the entries still open
    under [/dashboard/entry/]. With a base URL that holds it, the dashboard
    URL has [/dashboard] in the place of the first [/backend], the rest of
    the base URL kept. *)
Theorem dashboardUrl_cases (preferences : Preferences) (id : string) :
  (JS.includes (ycbUrl preferences) "/backend" = false ->
   dashboardUrl preferences = ycbUrl preferences /\
   getEntryUrl preferences id
   = ycbUrl preferences ++ "/dashboard/entry/" ++ id) /\
  (forall n,
      JS.indexOf (ycbUrl preferences) "/backend" = Some n ->
      dashboardUrl preferences
      = JS.take n (ycbUrl preferences) ++ "/dashboard" ++
        JS.drop (n + String.length "/backend") (ycbUrl preferences) /\
      getEntryUrl preferences id
      = JS.take n (ycbUrl preferences) ++
        JS.drop (n + String.length "/backend") (ycbUrl preferences) ++
        "/dashboard/entry/" ++ id).
Proof.
  unfold dashboardUrl, getEntryUrl. split.
  - intros H. now rewrite !JSFacts.replace_absent by exact H.
  - intros n H.
    rewrite (JSFacts.replace_indexOf _ _ "/dashboard" n H).
    rewrite (JSFacts.replace_indexOf _ _ "" n H).
    split; [reflexivity|]. simpl. now rewrite JSFacts.append_assoc.
Qed.

Lemma dashboardUrl_cases_witness :
  dashboardUrl {| apiKey := "secret"; ycbUrl := "http://localhost:3000" |}
  = "http://localhost:3000" /\
  getEntryUrl {| apiKey := "secret"; ycbUrl := "http://localhost:3000" |} "42"
  = "http://localhost:3000" ++ "/dashboard/entry/" ++ "42".
Proof.
  apply (proj1 (dashboardUrl_cases
                  {| apiKey := "secret"; ycbUrl := "http://localhost:3000" |}
                  "42")).
  reflexivity.
Defined.

(** ** The search text *)

Lemma typed_step preferences t w ev :
  withinBounds (fun s => searchText s = t) (fun _ => True)
               keepsSearchText knownNotice (fun _ => True) w ->
  withinBounds (fun s => searchText s = lastTyped t [ev]) (fun _ => True)
               keepsSearchText knownNotice (fun _ => True)
               (step preferences w ev).
Proof.
  intros Hw.
  assert (HU : forall t' f s, keepsSearchText f ->
                              searchText s = t' -> searchText (f s) = t')
    by (intros t' f s Hf <-; apply Hf).
  destruct ev as [|text| |i outcomes]; cbn [lastTyped].
  - unfold step. destruct (JS.truthy _); [|exact Hw].
    apply (BoundsFacts.run_withinBounds keepsSearchText knownNotice
             (fun _ => True) _ _ (HU t)); auto.
    apply ProgramBounds.obeys_initializeMeiliSearch; auto.
    intros c s. now destruct s.
  - destruct Hw as (_ & HL & HP). unfold step.
    rewrite AsyncFacts.handleSearchTextChange_run.
    destruct (BoundsFacts.run_withinBounds keepsSearchText knownNotice
                (fun _ => True) (fun s => searchText s = text) (fun _ => True)
                (HU text) (fun _ _ => I) (fun _ _ => I)
                (performMeiliSearch preferences text)) with
      (w := {| state := setSearchText text (state w); log := log w;
               pending := pending w |}) as (H1 & H2 & H3).
    + apply ProgramBounds.obeys_performMeiliSearch; auto;
        intros v s; now destruct s.
    + now repeat split.
    + repeat split; auto.
  - apply (BoundsFacts.run_withinBounds keepsSearchText knownNotice
             (fun _ => True) _ _ (HU t)); auto.
    apply ProgramBounds.obeys_handleEnterPress; auto;
      intros v s; now destruct s.
  - apply (BoundsFacts.settle_withinBounds keepsSearchText knownNotice
             (fun _ => True) _ _ (HU t)); auto.
Qed.

(** X15. The search text of the state is always the text of the last change
    made by the user: no answer of the network and no other event writes
    it. *)
Theorem search_text_is_last_typed (preferences : Preferences)
  (evs : list Event) :
  searchText (state (runTrace preferences initialWorld evs))
  = lastTyped "" evs.
Proof.
  assert (H : forall t w,
             withinBounds (fun s => searchText s = t) (fun _ => True)
                          keepsSearchText knownNotice (fun _ => True) w ->
             searchText (state (runTrace preferences w evs))
             = lastTyped t evs).
  { induction evs as [|ev evs IH]; intros t w Hw.
    - apply Hw.
    - change (runTrace preferences w (ev :: evs))
        with (runTrace preferences (step preferences w ev) evs).
      rewrite (IH (lastTyped t [ev])); [|now apply typed_step].
      now destruct ev. }
  apply H. repeat split; constructor.
Qed.

(** ** Bounds on what an item shows *)

(** X16. Every item has a title and a subtitle that are not empty. When
    the title comes from the text of the entry it has at most 63 code units
    and ends with [...], and so for the subtitle with 103; an entry without
    text and without title is titled [...]. *)
Theorem item_title_never_empty (result : SearchResult) :
  itemTitle result <> "" /\ itemSubtitle result <> "" /\
  (JS.truthy_opt (title (metadata result)) = false ->
   String.length (itemTitle result) <= 63 /\
   JS.ends_with (itemTitle result) "..." /\
   (data result = "" -> itemTitle result = "...")) /\
  (JS.truthy_opt (ogDescription (metadata result)) = false ->
   String.length (itemSubtitle result) <= 103 /\
   JS.ends_with (itemSubtitle result) "..." /\
   (data result = "" -> itemSubtitle result = "...")).
Proof.
  assert (Hne : forall field n, JS.or_else field
                  (JS.substring 0 n (data result) ++ "...") <> "").
  { intros [t|] n; simpl.
    - destruct t; simpl; [|discriminate].
      destruct (JS.substring 0 n (data result)); discriminate.
    - destruct (JS.substring 0 n (data result)); discriminate. }
  assert (Hfb : forall field n,
             JS.truthy_opt field = false ->
             JS.or_else field (JS.substring 0 n (data result) ++ "...")
             = JS.substring 0 n (data result) ++ "...").
  { intros [t|] n H; simpl in *; [|reflexivity]. now rewrite H. }
  unfold itemTitle, itemSubtitle. split; [apply Hne|]. split; [apply Hne|].
  split; intros H; rewrite (Hfb _ _ H).
  - split; [|split].
    + rewrite JSFacts.length_append, JSFacts.length_substring_0.
      change (String.length "...") with 3. lia.
    + now exists (JS.substring 0 60 (data result)).
    + now intros ->.
  - split; [|split].
    + rewrite JSFacts.length_append, JSFacts.length_substring_0.
      change (String.length "...") with 3. lia.
    + now exists (JS.substring 0 100 (data result)).
    + now intros ->.
Qed.

Lemma item_title_never_empty_witness :
  String.length (itemTitle untitledEntry) <= 63 /\
  JS.ends_with (itemTitle untitledEntry) "...".
Proof.
  destruct (item_title_never_empty untitledEntry) as (_ & _ & H & _).
  destruct (H eq_refl) as (H1 & H2 & _). now split.
Defined.

(** X17. The label of an author that does not parse as a URL has at most
    33 code units, is not empty unless the author is, and is the author
    itself when that has at most 30 code units and is outside the own
    domain. *)
Theorem label_of_plain_text (URL_hostname : string -> option string)
  (m : Metadata) (a : string) :
  author m = Some a ->
  URL_hostname a = None ->
  String.length (getMetadataDisplay URL_hostname m) <= 33 /\
  (a <> "" -> getMetadataDisplay URL_hostname m <> "") /\
  (String.length a <= 30 -> JS.includes a "yourcommonbase.com" = false ->
   getMetadataDisplay URL_hostname m = a).
Proof.
  intros Ha Hh.
  destruct (JS.includes a "yourcommonbase.com") eqn:Hin.
  - rewrite (NormalizerFacts.label_own_domain _ m a Ha Hin).
    split; [simpl; lia|]. split; [discriminate | discriminate].
  - rewrite (NormalizerFacts.label_raw _ m a Ha Hin Hh).
    destruct (Nat.ltb_spec 30 (String.length a)) as [L|L].
    + split; [|split].
      * rewrite JSFacts.length_append, JSFacts.length_take.
        change (String.length "...") with 3. lia.
      * intros _. destruct (JS.take 30 a); discriminate.
      * lia.
    + split; [lia|]. split; auto.
Qed.

Lemma label_of_plain_text_witness :
  String.length
    (getMetadataDisplay sample_hostname
       (withAuthor noMetadata "Notes taken at the reading group in spring"))
  <= 33.
Proof.
  apply (label_of_plain_text sample_hostname
           (withAuthor noMetadata "Notes taken at the reading group in spring")
           "Notes taken at the reading group in spring" eq_refl eq_refl).
Defined.

